(** * Swaps and currency-rate controllers: a shallow embedding

    The source file holds two independent TypeScript modules:

    - [SwapsController] (a class extending [BaseController]): best-quote
      selection over a map of aggregator quotes, and the bookkeeping of the
      controller state ([setQuotesLastFetched], [fetchAndSetQuotes],
      [pollForNewQuotes], [resetPostFetchState]);
    - [CurrencyRateController] (a Redux slice with thunks): the reducer and
      the asynchronous [poll], [start], [stop] and [updateCurrency].

    Part I embeds both modules; Part II states and proves their properties.

    What the embedding takes from outside the source file:
    - bignumber.js is an interface ([BigNumberLib]); the results on the
      selection loop hold for every implementation of it, and one
      implementation over exact rationals evaluates the scenarios;
    - [calcTokenAmount], [getMedian], the exchange rates and the gas price of
      the network are parameters of the best-quote functions;
    - [BaseController.update] merges the keys it is given into the state;
    - the Redux store runs a thunk when it is dispatched one and the reducer
      when it is dispatched an action; what it does with [undefined] is a
      parameter.

    Asynchronous functions are split at their single [await]: the code before
    it runs when the function is called, the code after it runs when the
    awaited fetch settles.  The JavaScript event loop becomes a transition
    system whose events are the calls of the application, the timers that
    fire, and the fetches that settle.  [Date.now()] never goes back, and a
    task of the event loop reads one value of it. *)

From Stdlib Require Import List String Ascii HexString Bool ZArith NArith QArith Lia.
Import ListNotations.

Local Open Scope string_scope.
Local Open Scope list_scope.

(** ** JavaScript preliminaries shared by both modules *)

Module Js.

(** Thrown values.  Only the constructor matters to the properties below. *)
Inductive jsError : Type :=
| Error (message : string)
| TypeError (message : string).

(** How a call ends: it returns, or it throws (for an async function: its
    promise is fulfilled, or rejected). *)
Inductive completion (A : Type) : Type :=
| Normal (a : A)
| Throw (e : jsError).
Arguments Normal {A} a.
Arguments Throw {A} e.

(** Truthiness of a string: only the empty string is falsy. *)
Definition truthy (s : string) : bool := negb (s =? "").

(** [a || b] on a possibly missing string. *)
Definition orElse (o : option string) (d : string) : string :=
  match o with
  | Some s => if truthy s then s else d
  | None => d
  end.

End Js.

(** ** Part I (a): SwapsController *)

Module Swaps.
Import Js.

Definition METASWAP_ADDRESS : string := "0x881d40237659c251811cec9c364ef91dc08d300c".
Definition ETH_SWAPS_TOKEN_ADDRESS : string := "0x0000000000000000000000000000000000000000".
Definition QUOTE_POLLING_INTERVAL : N := 50 * 1000.
Definition MAX_GAS_LIMIT : Q := 2500000.

(** *** The bignumber.js interface

    The quote arithmetic is written against the library's methods.  A JSON
    field that is handed to the library is a string or a number; the library
    also accepts its own numbers. *)
Inductive JsNumeric : Type :=
| JStr (s : string)
| JNum (n : Q).

Inductive Value (BN : Type) : Type :=
| Prim (p : JsNumeric)
| Big (b : BN).
Arguments Prim {BN} p.
Arguments Big {BN} b.

(** The methods of bignumber.js that the controller calls.  [base] is the
    optional second argument ([None] when it is left out). *)
Class BigNumberLib : Type := {
  BigNumber : Type;
  bn_new : Value BigNumber -> option N -> BigNumber;                (* new BigNumber(v, base) *)
  bn_plus : BigNumber -> Value BigNumber -> option N -> BigNumber;  (* x.plus(v, base) *)
  bn_minus : BigNumber -> Value BigNumber -> option N -> BigNumber; (* x.minus(v, base) *)
  bn_times : BigNumber -> Value BigNumber -> option N -> BigNumber; (* x.times(v, base) *)
  bn_toString : BigNumber -> N -> string;                           (* x.toString(base) *)
  bn_gt : BigNumber -> Value BigNumber -> bool                      (* x.gt(v) *)
}.

(** *** Quotes *)

Record ApprovalNeeded : Type := mkApprovalNeeded {
  gas : option string
}.

Record TokenInfo : Type := mkTokenInfo {
  decimals : N
}.

Record Trade : Type := mkTrade {
  value : string
}.

(** The fields of a quote that [getBestQuoteAndEthValues] destructures.
    [None] is a field that is missing, for [destinationAmount] (where the
    default [0] applies), and a field that is missing or [null] for
    [approvalNeeded], [averageGas] and [gasEstimate] (which are only tested
    for truthiness).  Numbers are rationals. *)
Record Quote : Type := mkQuote {
  aggregator : string;
  approvalNeeded : option ApprovalNeeded;
  averageGas : option Q;
  destinationAmount : option JsNumeric;
  destinationToken : string;
  destinationTokenInfo : TokenInfo;
  gasEstimate : option string;
  sourceAmount : JsNumeric;
  sourceToken : string;
  trade : Trade
}.

(** [SwapsQuotes]: an object keyed by aggregator id, as the list of its
    entries in the order [Object.values] enumerates them. *)
Definition SwapsQuotes : Type := list (string * Quote).

(** [obj[key]] on an object given by its entries. *)
Fixpoint lookup {A : Type} (key : string) (obj : list (string * A)) : option A :=
  match obj with
  | [] => None
  | (k, v) :: rest => if k =? key then Some v else lookup key rest
  end.

(** [n || d] on a possibly missing number: [undefined] and [0] are falsy. *)
Definition numberOr (n : option Q) (d : Q) : Q :=
  match n with
  | Some q => if Qeq_bool q 0 then d else q
  | None => d
  end.

(** The properties that a plain object inherits from [Object.prototype],
    each with what [String] makes of its value: eleven functions, and the
    prototype itself under [__proto__]. *)
Definition inheritedProperties : list (string * string) :=
  [("constructor", "function Object() { [native code] }");
   ("__defineGetter__", "function __defineGetter__() { [native code] }");
   ("__defineSetter__", "function __defineSetter__() { [native code] }");
   ("hasOwnProperty", "function hasOwnProperty() { [native code] }");
   ("__lookupGetter__", "function __lookupGetter__() { [native code] }");
   ("__lookupSetter__", "function __lookupSetter__() { [native code] }");
   ("isPrototypeOf", "function isPrototypeOf() { [native code] }");
   ("propertyIsEnumerable", "function propertyIsEnumerable() { [native code] }");
   ("toString", "function toString() { [native code] }");
   ("valueOf", "function valueOf() { [native code] }");
   ("__proto__", "[object Object]");
   ("toLocaleString", "function toLocaleString() { [native code] }")].

(** What [obj[key]] evaluates to on a plain object: the value of an own
    property, a function or object inherited from [Object.prototype] (kept
    as the string [String] makes of it), or [undefined]. *)
Inductive Property (A : Type) : Type :=
| Own (v : A)
| Inherited (text : string)
| Absent.
Arguments Own {A} v.
Arguments Inherited {A} text.
Arguments Absent {A}.

Definition getProperty {A : Type} (key : string) (obj : list (string * A)) : Property A :=
  match lookup key obj with
  | Some v => Own v
  | None =>
      match lookup key inheritedProperties with
      | Some text => Inherited text
      | None => Absent
      end
  end.

(** [rate || d] on what [contractExchangeRates[token]] gave: a number, which
    is falsy when it is [0]; an inherited function or object, which is
    truthy and which bignumber.js reads through [String]; or [undefined]. *)
Definition rateOr (rate : Property Q) (d : Q) : JsNumeric :=
  match rate with
  | Own q => JNum (if Qeq_bool q 0 then d else q)
  | Inherited text => JStr text
  | Absent => JNum d
  end.

(** [Boolean(rate)]. *)
Definition truthyRate (rate : Property Q) : bool :=
  match rate with
  | Own q => negb (Qeq_bool q 0)
  | Inherited _ => true
  | Absent => false
  end.

Section BestQuote.

Context {lib : BigNumberLib}.

(** [calcTokenAmount] of [../util] and [getMedian] of [./SwapsUtil] are
    imported by the controller and are parameters here. *)
Variable calcTokenAmount : Value BigNumber -> N -> BigNumber.
Variable getMedian : list BigNumber -> BigNumber.

(** [tokenRatesController.state.contractExchangeRates]. *)
Variable contractExchangeRates : list (string * Q).

(** What [await this.getGasPrice()] yields: the hexadecimal gas price of the
    network, or the error of the query. *)
Variable getGasPrice : completion string.

Record SwapsSavings : Type := mkSwapsSavings {
  total : BigNumber;
  performance : BigNumber;
  fee : BigNumber
}.

Record SwapsBestQuote : Type := mkSwapsBestQuote {
  topAggId : string;
  ethTradeValueOfBestQuote : BigNumber;
  ethFeeForBestQuote : BigNumber;
  isBest : bool
}.

Record SwapValues : Type := mkSwapValues {
  allEthTradeValues : list BigNumber;
  allEthFees : list BigNumber
}.

Record SwapsBestQuoteAndSwapValues : Type := mkSwapsBestQuoteAndSwapValues {
  bestQuote : SwapsBestQuote;
  values : SwapValues
}.

Record SwapsBestQuoteAndSavings : Type := mkSwapsBestQuoteAndSavings {
  savingsBestQuote : SwapsBestQuote;     (* bestQuote *)
  savings : SwapsSavings
}.

(** new BigNumber(0) *)
Definition bnZero : BigNumber := bn_new (Prim (JNum 0)) None.

(** The body of the [forEach] callback up to the two values it computes for
    one quote: [(ethValueOfTrade, ethFee)]. *)
Definition quoteValues (usedGasPrice : string) (quote : Quote) : BigNumber * BigNumber :=
  let destinationAmount :=
    match destinationAmount quote with
    | Some a => a
    | None => JNum 0
    end in
  let fromAverageGas :=
    bn_new (Prim (JNum (numberOr (averageGas quote) MAX_GAS_LIMIT))) (Some 10%N) in
  let tradeGasLimitForCalculation :=
    match gasEstimate quote with
    | Some estimate =>
        if truthy estimate
        then bn_new (Prim (JStr estimate)) (Some 16%N)
        else fromAverageGas
    | None => fromAverageGas
    end in
  let approvalGas :=
    match approvalNeeded quote with
    | Some approval => orElse (gas approval) "0x0"
    | None => "0x0"
    end in
  let totalGasLimitForCalculation :=
    bn_toString (bn_plus tradeGasLimitForCalculation (Prim (JStr approvalGas)) (Some 16%N)) 16 in
  let gasTotalInWeiHex :=
    bn_times (bn_new (Prim (JStr totalGasLimitForCalculation)) (Some 16%N))
             (Big (bn_new (Prim (JStr usedGasPrice)) (Some 16%N))) None in
  let totalWeiCost :=
    bn_plus (bn_new (Big gasTotalInWeiHex) (Some 16%N))
            (Prim (JStr (value (trade quote)))) (Some 16%N) in
  let ethFee :=
    if sourceToken quote =? ETH_SWAPS_TOKEN_ADDRESS
    then bn_minus totalWeiCost (Prim (sourceAmount quote)) (Some 10%N)
    else totalWeiCost in
  let tokenConversionRate := getProperty (destinationToken quote) contractExchangeRates in
  let ethValueOfTrade :=
    if destinationToken quote =? ETH_SWAPS_TOKEN_ADDRESS
    then bn_minus (calcTokenAmount (Prim destinationAmount) 18) (Big totalWeiCost) (Some 10%N)
    else
      bn_minus
        (bn_times (bn_new (Prim (rateOr tokenConversionRate 1)) (Some 10%N))
                  (Big (calcTokenAmount (Prim destinationAmount)
                          (decimals (destinationTokenInfo quote))))
                  (Some 10%N))
        (if truthyRate tokenConversionRate then Big totalWeiCost else Prim (JNum 0))
        (Some 10%N) in
  (ethValueOfTrade, ethFee).

(** [ethValueOfTrade] alone. *)
Definition ethValueOfTrade (usedGasPrice : string) (quote : Quote) : BigNumber :=
  fst (quoteValues usedGasPrice quote).

(** The variables of [getBestQuoteAndEthValues] that the callback writes. *)
Record Locals : Type := mkLocals {
  l_allEthTradeValues : list BigNumber;
  l_allEthFees : list BigNumber;
  l_topAggId : string;
  l_ethTradeValueOfBestQuote : BigNumber;
  l_ethFeeForBestQuote : BigNumber
}.

Definition initialLocals : Locals :=
  mkLocals [] [] "" bnZero bnZero.

(** One call of the [forEach] callback. *)
Definition forEachQuote (usedGasPrice : string) (l : Locals) (quote : Quote) : Locals :=
  let '(ethValueOfTrade, ethFee) := quoteValues usedGasPrice quote in
  let allEthTradeValues := l_allEthTradeValues l ++ [ethValueOfTrade] in
  let allEthFees := l_allEthFees l ++ [ethFee] in
  if bn_gt ethValueOfTrade (Big (l_ethTradeValueOfBestQuote l))
  then mkLocals allEthTradeValues allEthFees (aggregator quote) ethValueOfTrade ethFee
  else mkLocals allEthTradeValues allEthFees
         (l_topAggId l) (l_ethTradeValueOfBestQuote l) (l_ethFeeForBestQuote l).

Definition cannotReadDestinationToken : jsError :=
  TypeError "Cannot read property 'destinationToken' of undefined".

Definition getBestQuoteAndEthValues (quotes : SwapsQuotes) (customGasPrice : string)
  : completion SwapsBestQuoteAndSwapValues :=
  match (if truthy customGasPrice then Normal customGasPrice else getGasPrice) with
  | Throw e => Throw e
  | Normal usedGasPrice =>
      let quotesValues := map snd quotes in
      let l := fold_left (forEachQuote usedGasPrice) quotesValues initialLocals in
      match getProperty (l_topAggId l) quotes with
      | Absent => Throw cannotReadDestinationToken
      | top =>
          (* [.destinationToken] of a quote, or of an inherited function or
             object, which has no such property *)
          let topDestinationToken :=
            match top with
            | Own quote => Some (destinationToken quote)
            | _ => None
            end in
          let isBest :=
            match topDestinationToken with
            | Some token =>
                (token =? ETH_SWAPS_TOKEN_ADDRESS)
                || truthyRate (getProperty token contractExchangeRates)
            | None =>
                (* [undefined] as a property key is the string "undefined" *)
                truthyRate (getProperty "undefined" contractExchangeRates)
            end in
          Normal
            (mkSwapsBestQuoteAndSwapValues
               (mkSwapsBestQuote (l_topAggId l) (l_ethTradeValueOfBestQuote l)
                  (l_ethFeeForBestQuote l) isBest)
               (mkSwapValues (l_allEthTradeValues l) (l_allEthFees l)))
      end
  end.

Definition calculateSavings (quote : SwapsBestQuote) (values : SwapValues) : SwapsSavings :=
  let performance :=
    bn_minus (ethTradeValueOfBestQuote quote)
             (Big (getMedian (allEthTradeValues values))) (Some 10%N) in
  let fee :=
    bn_minus (getMedian (allEthFees values))
             (Big (ethFeeForBestQuote quote)) (Some 10%N) in
  let total := bn_plus performance (Big fee) (Some 10%N) in
  mkSwapsSavings total performance fee.

(** The promise of [findBestQuoteAndCalulateSavings]: [null] for an empty
    map, otherwise the best quote with its savings, or the error thrown on
    the way. *)
Definition findBestQuoteAndCalulateSavings (quotes : SwapsQuotes) (customGasPrice : string)
  : completion (option SwapsBestQuoteAndSavings) :=
  let numQuotes := List.length quotes in
  if (numQuotes =? 0)%nat
  then Normal None
  else
    match getBestQuoteAndEthValues quotes customGasPrice with
    | Throw e => Throw e
    | Normal best =>
        let savings := calculateSavings (bestQuote best) (values best) in
        Normal (Some (mkSwapsBestQuoteAndSavings (bestQuote best) savings))
    end.

End BestQuote.

(** *** A bignumber.js to compute with

    Numbers are exact rationals, [None] is [NaN].  The instance follows
    bignumber.js in its default configuration (20 decimal places, rounding
    half up, exponential notation from 1e21) on what the scenarios of Part II
    feed it: numbers, decimal strings, hexadecimal integer strings with or
    without the 0x prefix (their letters all in lower case or all in upper
    case: the library reads a mixed-case string as [NaN]), and integers when
    a BigNumber is read back in base 16.  What lies outside (exponents in
    strings, hexadecimal fractions, bases other than 10 and 16) is [NaN]
    here. *)
Module ExactDecimal.

Fixpoint digitsFrom (base : N) (s : string) (acc : N) : option N :=
  match s with
  | EmptyString => Some acc
  | String c rest =>
      match HexString.ascii_to_digit c with
      | Some d => if (d <? base)%N then digitsFrom base rest (acc * base + d)%N else None
      | None => None
      end
  end.

(** A non-empty run of digits of [base]. *)
Definition digits (base : N) (s : string) : option N :=
  match s with
  | EmptyString => None
  | _ => digitsFrom base s 0
  end.

Definition isUpper (c : ascii) : bool :=
  ((65 <=? N_of_ascii c) && (N_of_ascii c <=? 90))%N.

Definition isLower (c : ascii) : bool :=
  ((97 <=? N_of_ascii c) && (N_of_ascii c <=? 122))%N.

Fixpoint anyChar (p : ascii -> bool) (s : string) : bool :=
  match s with
  | EmptyString => false
  | String c rest => p c || anyChar p rest
  end.

(** [str == str.toUpperCase() || str == str.toLowerCase()]: the library
    reads letters as digits in one case or in the other, not mixed. *)
Definition singleCase (s : string) : bool :=
  negb (anyChar isUpper s && anyChar isLower s).

(** A non-empty run of hexadecimal digits, its letters in a single case. *)
Definition hexDigits (s : string) : option N :=
  if singleCase s then digits 16 s else None.

Definition splitSign (s : string) : bool * string :=
  match s with
  | String "-" rest => (true, rest)
  | _ => (false, s)
  end.

Definition hexPrefixed (s : string) : option string :=
  match s with
  | String "0" (String "x" rest) => Some rest
  | String "0" (String "X" rest) => Some rest
  | _ => None
  end.

Definition signed (negative : bool) (q : Q) : Q := if negative then Qopp q else q.

(** A string read in base 16. *)
Definition parseHex (s : string) : option Q :=
  let '(negative, body) := splitSign s in
  let body := match hexPrefixed body with Some rest => rest | None => body end in
  match hexDigits body with
  | Some n => Some (signed negative (inject_Z (Z.of_N n)))
  | None => None
  end.

Fixpoint splitDot (s : string) : string * option string :=
  match s with
  | EmptyString => (EmptyString, None)
  | String c rest =>
      if Ascii.eqb c "."
      then (EmptyString, Some rest)
      else let '(whole, fraction) := splitDot rest in (String c whole, fraction)
  end.

(** A string read with no base, or in base 10: an optional sign, then a 0x
    literal or decimal digits with an optional fraction. *)
Definition parseDecimal (s : string) : option Q :=
  let '(negative, body) := splitSign s in
  match hexPrefixed body with
  | Some rest =>
      match hexDigits rest with
      | Some n => Some (signed negative (inject_Z (Z.of_N n)))
      | None => None
      end
  | None =>
      match splitDot body with
      | (whole, None) =>
          match digits 10 whole with
          | Some n => Some (signed negative (inject_Z (Z.of_N n)))
          | None => None
          end
      | (whole, Some fraction) =>
          match digitsFrom 10 whole 0, digitsFrom 10 fraction 0 with
          | Some n, Some f =>
              if ((String.length whole =? 0) && (String.length fraction =? 0))%nat
              then None
              else
                Some (signed negative
                        (Qred (inject_Z (Z.of_N n)
                               + (Z.of_N f # Pos.pow 10 (Pos.of_nat (String.length fraction))))))
          | _, _ => None
          end
      end
  end.

(** Rounding to 20 decimal places, half away from zero. *)
Definition round20 (q : Q) : Q :=
  let n := Qnum q in
  let d := Zpos (Qden q) in
  let m := ((2 * Z.abs n * 10 ^ 20 + d) / (2 * d))%Z in
  Qred ((Z.sgn n * m)%Z # Pos.pow 10 20).

(** The decimal digits of [n], read as hexadecimal digits. *)
Fixpoint redigit (fuel : nat) (n : N) : N :=
  match fuel with
  | O => 0
  | S fuel' => if (n <? 10)%N then n else (16 * redigit fuel' (n / 10) + n mod 10)%N
  end.

(** [new BigNumber(x, 16)] on a number [x]: the library reads [String(x)],
    the decimal notation of [x], in base 16. *)
Definition reread16 (q : Q) : option Q :=
  let r := Qred q in
  match Qden r with
  | xH =>
      let n := Z.abs_N (Qnum r) in
      if (n <? 10 ^ 21)%N
      then Some (signed (Qnum r <? 0)%Z (inject_Z (Z.of_N (redigit 22 n))))
      else None
  | _ => None
  end.

Definition new (v : Value (option Q)) (base : option N) : option Q :=
  match base with
  | None =>
      match v with
      | Prim (JNum n) => Some (Qred n)
      | Prim (JStr s) => parseDecimal s
      | Big b => b
      end
  | Some 10%N =>
      match v with
      | Prim (JNum n) => Some (round20 n)
      | Prim (JStr s) => option_map round20 (parseDecimal s)
      | Big b => option_map round20 b
      end
  | Some 16%N =>
      match v with
      | Prim (JNum n) => reread16 n
      | Prim (JStr s) => parseHex s
      | Big (Some q) => reread16 q
      | Big None => None
      end
  | Some _ => None
  end.

Definition lift2 (op : Q -> Q -> Q) (x : option Q) (v : Value (option Q)) (base : option N)
  : option Q :=
  match x, new v base with
  | Some a, Some b => Some (Qred (op a b))
  | _, _ => None
  end.

Definition toString (x : option Q) (base : N) : string :=
  match x, base with
  | Some q, 16%N =>
      let r := Qred q in
      match Qden r, Qnum r with
      | xH, Z0 => "0"
      | xH, Zpos p => HexString.Raw.of_pos p ""
      | xH, Zneg p => String "-" (HexString.Raw.of_pos p "")
      | _, _ => "NaN"
      end
  | _, _ => "NaN"
  end.

Definition gt (x : option Q) (v : Value (option Q)) : bool :=
  match x, new v None with
  | Some a, Some b => negb (Qle_bool a b)
  | _, _ => false
  end.

#[export] Instance exactDecimal : BigNumberLib := {|
  BigNumber := option Q;
  bn_new := new;
  bn_plus := lift2 Qplus;
  bn_minus := lift2 Qminus;
  bn_times := lift2 Qmult;
  bn_toString := toString;
  bn_gt := gt
|}.

(** Modelled from the spec: [calcTokenAmount] is imported from [../util],
    which is not among the sources; the spec only speaks of "a bounded set of
    arithmetic operations over a handful of fields".  Following its name and
    its use on [(amount, decimals)], it is the amount divided by ten to the
    power [decimals], a bignumber.js division (20 decimal places). *)
Definition calcTokenAmount (amount : Value (option Q)) (decimals : N) : option Q :=
  match new amount None with
  | Some a => Some (round20 (a / inject_Z (10 ^ Z.of_N decimals)))
  | None => None
  end.

End ExactDecimal.

(** *** The controller and its state *)

(** A value of a [Record<string, any>]. *)
#[local] Set Warnings "-register-all".
Inductive JsValue : Type :=
| JsUndefined
| JsNull
| JsBoolean (b : bool)
| JsNumber (n : Q)
| JsString (s : string)
| JsObject (fields : list (string * JsValue)).
#[local] Set Warnings "register-all".

(** [{ ...obj, key: v }]: the key keeps its place when [obj] has it, and is
    added last otherwise. *)
Fixpoint withField (key : string) (v : JsValue) (obj : list (string * JsValue))
  : list (string * JsValue) :=
  match obj with
  | [] => [(key, v)]
  | (k, old) :: rest =>
      if k =? key then (k, v) :: rest else (k, old) :: withField key v rest
  end.

Record SwapsTokenObject : Type := mkSwapsTokenObject {
  address : string;
  symbol : string;
  tokenDecimals : N;                (* decimals *)
  occurances : option N;
  iconUrl : option string
}.

(** [SwapsError] is an enum of [./SwapsUtil]; its members are strings. *)
Definition SwapsError : Type := string.

Module SwapsState.
Record t : Type := mk {
  quotes : SwapsQuotes;
  fetchParams : option (list (string * JsValue));
  tokens : option (list SwapsTokenObject);
  quotesLastFetched : option N;
  errorKey : option SwapsError;
  topAggId : option string;
  swapsFeatureIsLive : bool
}.
End SwapsState.

(** [Partial<SwapsState>]: [None] is a key the object does not have. *)
Module PartialSwapsState.
Record t : Type := mk {
  quotes : option SwapsQuotes;
  fetchParams : option (option (list (string * JsValue)));
  tokens : option (option (list SwapsTokenObject));
  quotesLastFetched : option (option N);
  errorKey : option (option SwapsError);
  topAggId : option (option string);
  swapsFeatureIsLive : option bool
}.
Definition empty : t := mk None None None None None None None.
End PartialSwapsState.

Definition defaultState : SwapsState.t :=
  SwapsState.mk [] None None None None None false.

(** [{ ...this.state }]: every key of the state, with its value. *)
Definition spread (s : SwapsState.t) : PartialSwapsState.t :=
  PartialSwapsState.mk
    (Some (SwapsState.quotes s)) (Some (SwapsState.fetchParams s))
    (Some (SwapsState.tokens s)) (Some (SwapsState.quotesLastFetched s))
    (Some (SwapsState.errorKey s)) (Some (SwapsState.topAggId s))
    (Some (SwapsState.swapsFeatureIsLive s)).

Definition orKeep {A : Type} (given : option A) (current : A) : A :=
  match given with
  | Some v => v
  | None => current
  end.

(** Modelled from the spec: [update] is inherited from [BaseController],
    which is not among the sources.  The spec describes controllers that
    "cache [fetched data] in a state object"; the calls in this class hand
    [update] an object with some of the keys of the state, so [update] is the
    merge of those keys over the current state ([Object.assign]). *)
Definition merge (p : PartialSwapsState.t) (s : SwapsState.t) : SwapsState.t :=
  SwapsState.mk
    (orKeep (PartialSwapsState.quotes p) (SwapsState.quotes s))
    (orKeep (PartialSwapsState.fetchParams p) (SwapsState.fetchParams s))
    (orKeep (PartialSwapsState.tokens p) (SwapsState.tokens s))
    (orKeep (PartialSwapsState.quotesLastFetched p) (SwapsState.quotesLastFetched s))
    (orKeep (PartialSwapsState.errorKey p) (SwapsState.errorKey s))
    (orKeep (PartialSwapsState.topAggId p) (SwapsState.topAggId s))
    (orKeep (PartialSwapsState.swapsFeatureIsLive p) (SwapsState.swapsFeatureIsLive s)).

(** The controller object: its state, the private [handle], and the
    timeouts of the event loop that are armed. *)
Record SwapsController : Type := mkSwapsController {
  state : SwapsState.t;
  handle : option nat;
  armed : list nat;
  nextTimer : nat
}.

Definition newController : SwapsController :=
  mkSwapsController defaultState None [] 0.

Definition update (p : PartialSwapsState.t) (this : SwapsController) : SwapsController :=
  mkSwapsController (merge p (state this)) (handle this) (armed this) (nextTimer this).

Definition clearTimeout (timer : nat) (this : SwapsController) : SwapsController :=
  mkSwapsController (state this) (handle this)
    (filter (fun t => negb (t =? timer)%nat) (armed this)) (nextTimer this).

(** [this.handle && clearTimeout(this.handle)]. *)
Definition clearHandle (this : SwapsController) : SwapsController :=
  match handle this with
  | Some timer => clearTimeout timer this
  | None => this
  end.

(** [this.handle = setTimeout(callback, QUOTE_POLLING_INTERVAL)]. *)
Definition setHandleTimeout (this : SwapsController) : SwapsController :=
  mkSwapsController (state this) (Some (nextTimer this))
    (armed this ++ [nextTimer this]) (S (nextTimer this)).

Definition setSwapsTokens (newTokens : option (list SwapsTokenObject))
  (this : SwapsController) : SwapsController :=
  update (PartialSwapsState.mk None None (Some newTokens) None None None None) this.

Definition setSwapsErrorKey (newErrorKey : option SwapsError)
  (this : SwapsController) : SwapsController :=
  update (PartialSwapsState.mk None None None None (Some newErrorKey) None None) this.

Definition setQuotesLastFetched (quotesLastFetched : SwapsQuotes)
  (this : SwapsController) : SwapsController :=
  update (PartialSwapsState.mk (Some quotesLastFetched) None None None None None None) this.

Definition setSwapsLiveness (isLive : bool) (this : SwapsController) : SwapsController :=
  update (PartialSwapsState.mk None None None None None None (Some isLive)) this.

(** What the promise of [fetchAndSetQuotes] resolves to. *)
Inductive FetchResult : Type :=
| ResolvedNull
| ResolvedUndefined.

(** [fetchAndSetQuotes] has no [await]: it runs to its end when called. *)
Definition fetchAndSetQuotes
  (fetchParams : option (list (string * JsValue)))
  (fetchParamsMetaData : list (string * JsValue))
  (isPolledRequest : bool)
  (customGasPrice : option string)
  (this : SwapsController) : SwapsController * FetchResult :=
  match fetchParams with
  | None => (this, ResolvedNull)
  | Some params =>
      let this := clearHandle this in
      let this := if negb isPolledRequest then setSwapsErrorKey None this else this in
      let this :=
        update
          (PartialSwapsState.mk None
             (Some (Some (withField "metaData" (JsObject fetchParamsMetaData) params)))
             None None None None None)
          this in
      (this, ResolvedUndefined)
  end.

(** The callback that [pollForNewQuotes] hands to [setTimeout]. *)
Definition pollCallback (this : SwapsController) : SwapsController :=
  fst (fetchAndSetQuotes None [] true None this).

Definition pollForNewQuotes (this : SwapsController) : SwapsController :=
  let this := clearHandle this in
  let this := fst (fetchAndSetQuotes None [] true None this) in
  setHandleTimeout this.

(** The event loop runs the callback of an armed timeout; [None] when
    [timer] is not armed. *)
Definition timeoutFires (timer : nat) (this : SwapsController) : option SwapsController :=
  if existsb (fun t => (t =? timer)%nat) (armed this)
  then Some (pollCallback (clearTimeout timer this))
  else None.

(** Timeouts that fire one after the other; one that is not armed is
    skipped. *)
Fixpoint fireTimeouts (timers : list nat) (this : SwapsController) : SwapsController :=
  match timers with
  | [] => this
  | timer :: rest =>
      match timeoutFires timer this with
      | Some this' => fireTimeouts rest this'
      | None => fireTimeouts rest this
      end
  end.

Definition stopPollingForQuotes (this : SwapsController) : SwapsController :=
  clearHandle this.

Definition safeRefetchQuotes (this : SwapsController) : SwapsController :=
  let fetchParams := SwapsState.fetchParams (state this) in
  match handle this, fetchParams with
  | None, Some params => fst (fetchAndSetQuotes (Some params) [] false None this)
  | _, _ => this
  end.

Definition getAllQuotesWithGasEstimates (quotes : SwapsQuotes) : SwapsQuotes :=
  let newQuotes := quotes in
  newQuotes.

Definition resetPostFetchState (this : SwapsController) : SwapsController :=
  let resetTokens := SwapsState.tokens (state this) in
  let resetFetchParams := SwapsState.fetchParams (state this) in
  let resetSwapsFeatureIsLive := SwapsState.swapsFeatureIsLive (state this) in
  let spreadState := spread (state this) in
  let this :=
    update
      (PartialSwapsState.mk
         (PartialSwapsState.quotes spreadState)
         (Some resetFetchParams)
         (Some resetTokens)
         (PartialSwapsState.quotesLastFetched spreadState)
         (PartialSwapsState.errorKey spreadState)
         (PartialSwapsState.topAggId spreadState)
         (Some resetSwapsFeatureIsLive))
      this in
  clearHandle this.

(** *** The controller in use *)

(** What happens to a controller after its construction: its owner calls
    one of the methods of the class, or a timeout of the event loop
    elapses. *)
Inductive Call : Type :=
| CallSetSwapsTokens (newTokens : option (list SwapsTokenObject))
| CallSetSwapsErrorKey (newErrorKey : option SwapsError)
| CallSetQuotesLastFetched (quotesLastFetched : SwapsQuotes)
| CallSetSwapsLiveness (isLive : bool)
| CallPollForNewQuotes
| CallStopPollingForQuotes
| CallFetchAndSetQuotes (fetchParams : option (list (string * JsValue)))
    (fetchParamsMetaData : list (string * JsValue)) (isPolledRequest : bool)
    (customGasPrice : option string)
| CallSafeRefetchQuotes
| CallResetPostFetchState
| TimeoutElapses (timer : nat).

Definition perform (call : Call) (this : SwapsController) : SwapsController :=
  match call with
  | CallSetSwapsTokens newTokens => setSwapsTokens newTokens this
  | CallSetSwapsErrorKey newErrorKey => setSwapsErrorKey newErrorKey this
  | CallSetQuotesLastFetched quotesLastFetched => setQuotesLastFetched quotesLastFetched this
  | CallSetSwapsLiveness isLive => setSwapsLiveness isLive this
  | CallPollForNewQuotes => pollForNewQuotes this
  | CallStopPollingForQuotes => stopPollingForQuotes this
  | CallFetchAndSetQuotes fetchParams fetchParamsMetaData isPolledRequest customGasPrice =>
      fst (fetchAndSetQuotes fetchParams fetchParamsMetaData isPolledRequest customGasPrice this)
  | CallSafeRefetchQuotes => safeRefetchQuotes this
  | CallResetPostFetchState => resetPostFetchState this
  | TimeoutElapses timer =>
      match timeoutFires timer this with
      | Some this' => this'
      | None => this
      end
  end.

Definition performAll (calls : list Call) (this : SwapsController) : SwapsController :=
  fold_left (fun this call => perform call this) calls this.

(** At most one timeout is armed, and it is the one that [this.handle]
    holds. *)
Definition oneTimer (this : SwapsController) : Prop :=
  armed this = [] \/ exists timer, handle this = Some timer /\ armed this = [timer].

(** *** Sample quotes for the scenarios of Part II *)

Definition DAI : string := "0x6b175474e89094c44da98b954eedeac495271d0f".
Definition USDT : string := "0xdac17f958d2ee523a2206206994597c13d831ec7".

(** A swap of 2000 DAI for 1 ETH (10^18 wei), with a gas estimate of
    0x5208 = 21000 and no fee in [trade.value]. *)
Definition daiToEthQuote : Quote :=
  mkQuote "airswapLight" None (Some 120000)
    (Some (JStr "1000000000000000000")) ETH_SWAPS_TOKEN_ADDRESS (mkTokenInfo 18)
    (Some "0x5208") (JStr "2000000000000000000000") DAI (mkTrade "0x0").

(** A swap of 1 ETH for 250 USDT (6 decimals), without a gas estimate. *)
Definition ethToUsdtQuote : Quote :=
  mkQuote "uniswap" None (Some 120000)
    (Some (JStr "250000000")) USDT (mkTokenInfo 6)
    None (JStr "1000000000000000000") ETH_SWAPS_TOKEN_ADDRESS
    (mkTrade "0xde0b6b3a7640000").

(** The same swap offered for 260 USDT by another aggregator. *)
Definition ethToUsdtBetterQuote : Quote :=
  mkQuote "paraswap" None (Some 150000)
    (Some (JStr "260000000")) USDT (mkTokenInfo 6)
    None (JStr "1000000000000000000") ETH_SWAPS_TOKEN_ADDRESS
    (mkTrade "0xde0b6b3a7640000").

(** A gas price of 1 gwei. *)
Definition oneGwei : string := "0x3b9aca00".

(** What [getBestQuoteAndEthValues] returns for the two offers of USDT at
    a gas price of 1 gwei, in the arithmetic of [ExactDecimal]. *)
Definition bestOfTwoOffers : SwapsBestQuoteAndSwapValues (lib := ExactDecimal.exactDecimal) :=
  mkSwapsBestQuoteAndSwapValues (lib := ExactDecimal.exactDecimal)
    (mkSwapsBestQuote (lib := ExactDecimal.exactDecimal)
       "paraswap" (Some 260%Q) (Some 94575592174780416%Q) false)
    (mkSwapValues (lib := ExactDecimal.exactDecimal)
       [Some 250%Q; Some 260%Q]
       [Some 81064793292668928%Q; Some 94575592174780416%Q]).

End Swaps.

(** ** Part I (b): CurrencyRateController *)

Module CurrencyRate.
Import Js.

Definition POLLING_INTERVAL : N := 180000.

(** [CurrencyRateState].  Times are milliseconds since the epoch, as
    [Date.now()] gives them; [undefined] and [null] are [None]. *)
Record CurrencyRateState : Type := mkState {
  conversionDate : N;
  conversionRate : Q;
  currentCurrency : string;
  nativeCurrency : string;
  pendingCurrentCurrency : option string;
  pendingNativeCurrency : option string;
  pollingStartTime : option N;
  updateStartTime : option N
}.

Definition initialState : CurrencyRateState :=
  {| conversionDate := 0;
     conversionRate := 0;
     currentCurrency := "usd";
     nativeCurrency := "ETH";
     pendingCurrentCurrency := None;
     pendingNativeCurrency := None;
     pollingStartTime := None;
     updateStartTime := None |}.

(** Assignments to one field of the (draft) state. *)
Definition set_conversionDate (v : N) (s : CurrencyRateState) :=
  mkState v (conversionRate s) (currentCurrency s) (nativeCurrency s)
          (pendingCurrentCurrency s) (pendingNativeCurrency s)
          (pollingStartTime s) (updateStartTime s).
Definition set_conversionRate (v : Q) (s : CurrencyRateState) :=
  mkState (conversionDate s) v (currentCurrency s) (nativeCurrency s)
          (pendingCurrentCurrency s) (pendingNativeCurrency s)
          (pollingStartTime s) (updateStartTime s).
Definition set_currentCurrency (v : string) (s : CurrencyRateState) :=
  mkState (conversionDate s) (conversionRate s) v (nativeCurrency s)
          (pendingCurrentCurrency s) (pendingNativeCurrency s)
          (pollingStartTime s) (updateStartTime s).
Definition set_nativeCurrency (v : string) (s : CurrencyRateState) :=
  mkState (conversionDate s) (conversionRate s) (currentCurrency s) v
          (pendingCurrentCurrency s) (pendingNativeCurrency s)
          (pollingStartTime s) (updateStartTime s).
Definition set_pendingCurrentCurrency (v : option string) (s : CurrencyRateState) :=
  mkState (conversionDate s) (conversionRate s) (currentCurrency s) (nativeCurrency s)
          v (pendingNativeCurrency s)
          (pollingStartTime s) (updateStartTime s).
Definition set_pendingNativeCurrency (v : option string) (s : CurrencyRateState) :=
  mkState (conversionDate s) (conversionRate s) (currentCurrency s) (nativeCurrency s)
          (pendingCurrentCurrency s) v
          (pollingStartTime s) (updateStartTime s).
Definition set_pollingStartTime (v : option N) (s : CurrencyRateState) :=
  mkState (conversionDate s) (conversionRate s) (currentCurrency s) (nativeCurrency s)
          (pendingCurrentCurrency s) (pendingNativeCurrency s)
          v (updateStartTime s).
Definition set_updateStartTime (v : option N) (s : CurrencyRateState) :=
  mkState (conversionDate s) (conversionRate s) (currentCurrency s) (nativeCurrency s)
          (pendingCurrentCurrency s) (pendingNativeCurrency s)
          (pollingStartTime s) v.

(** The actions of the slice, each with its payload. *)
Inductive action : Type :=
| pollingStarted (payload : N)
| pollingStopped
| pollFinished (payload : Q)
| updateCurrencyStarted (currentCurrency nativeCurrency : string) (updateStartTime : N)
| updateCurrencyFailed
| updateCurrencyFinished (payload : Q).

Definition missingCurrency : jsError :=
  Error "Missing currency; either current or native currency must be specified".

(** The case reducers.  [now] is what [Date.now()] returns while the reducer
    runs.  The statements of a case are applied in the order of the source;
    each [if] reads the state as the statements before it left it. *)
Definition reducer (now : N) (state : CurrencyRateState) (a : action)
  : completion CurrencyRateState :=
  match a with
  | pollingStarted payload =>
      Normal (set_pollingStartTime (Some payload) state)
  | pollingStopped =>
      Normal (set_pollingStartTime None state)
  | pollFinished conversionRate =>
      let state := set_conversionDate now state in
      let state := set_conversionRate conversionRate state in
      Normal state
  | updateCurrencyStarted currentCurrency nativeCurrency updateStartTime =>
      if negb (truthy currentCurrency) && negb (truthy nativeCurrency)
      then Throw missingCurrency
      else
        let state :=
          if truthy currentCurrency
          then set_pendingCurrentCurrency (Some currentCurrency) state
          else state in
        let state :=
          if truthy nativeCurrency
          then set_pendingNativeCurrency (Some nativeCurrency) state
          else state in
        Normal (set_updateStartTime (Some updateStartTime) state)
  | updateCurrencyFailed =>
      let state := set_pendingCurrentCurrency None state in
      let state := set_pendingNativeCurrency None state in
      Normal state
  | updateCurrencyFinished conversionRate =>
      let state := set_conversionDate now state in
      let state := set_conversionRate conversionRate state in
      let state :=
        match pendingCurrentCurrency state with
        | Some pending =>
            if truthy pending
            then set_pendingCurrentCurrency None (set_currentCurrency pending state)
            else state
        | None => state
        end in
      (* the second test reads pendingCurrentCurrency again, as the source does *)
      let state :=
        match pendingCurrentCurrency state with
        | Some pending =>
            if truthy pending
            then set_pendingNativeCurrency None (set_nativeCurrency pending state)
            else state
        | None => state
        end in
      Normal state
  end.

(** Selectors. *)
Definition getPollingStartTime (state : CurrencyRateState) : option N :=
  pollingStartTime state.
Definition getCurrentCurrency (state : CurrencyRateState) : string :=
  currentCurrency state.
Definition getNativeCurrency (state : CurrencyRateState) : string :=
  nativeCurrency state.
Definition getPendingOrActiveCurrentCurrency (state : CurrencyRateState) : string :=
  orElse (pendingCurrentCurrency state) (getCurrentCurrency state).
Definition getPendingOrActiveNativeCurrency (state : CurrencyRateState) : string :=
  orElse (pendingNativeCurrency state) (getNativeCurrency state).
Definition getUpdateStartTime (state : CurrencyRateState) : option N :=
  updateStartTime state.

(** *** The store, the clock and what is in flight *)

(** What the thunks hand to [dispatch]: an action object, the thunk that
    [start(fetchExchangeRate)] returns, or [undefined] (what [stop()]
    returns). *)
Inductive dispatchable : Type :=
| Act (a : action)
| StartThunk
| Undefined.

(** A call [fetchExchangeRate(current, native)] made by [poll] and not yet
    settled, with the local [fetchStartTime] its continuation will read. *)
Record PollFetch : Type := mkPollFetch {
  pfId : nat;
  fetchStartTime : N;
  pfCurrentCurrency : string;
  pfNativeCurrency : string
}.

(** A call [fetchExchangeRate] made by [updateCurrency] and not yet settled,
    with the local [updateStartTime] of that run. *)
Record UpdateFetch : Type := mkUpdateFetch {
  ufId : nat;
  ufUpdateStartTime : N;
  ufCurrentCurrency : string;
  ufNativeCurrency : string
}.

(** An interval armed by [start]: the [pollingStartTime] its callback closes
    over, and the time from which it may fire next. *)
Record Interval : Type := mkInterval {
  ivId : nat;
  ivPollingStartTime : N;
  ivDue : N
}.

(** What an observer of the store and of the returned promises sees. *)
Inductive logEntry : Type :=
| Dispatched (d : dispatchable)
| Rejected (e : jsError).

Record World : Type := mkWorld {
  store : CurrencyRateState;        (* the slice of the Redux store *)
  clock : N;                        (* Date.now() *)
  pollFetches : list PollFetch;
  updateFetches : list UpdateFetch;
  intervals : list Interval;
  nextId : nat;                     (* fresh ids for fetches and intervals *)
  log : list logEntry               (* oldest first *)
}.

Definition initialWorld (now : N) : World :=
  mkWorld initialState now [] [] [] 0 [].

Definition with_store (s : CurrencyRateState) (w : World) : World :=
  mkWorld s (clock w) (pollFetches w) (updateFetches w) (intervals w) (nextId w) (log w).
Definition with_clock (t : N) (w : World) : World :=
  mkWorld (store w) t (pollFetches w) (updateFetches w) (intervals w) (nextId w) (log w).
Definition with_pollFetches (l : list PollFetch) (w : World) : World :=
  mkWorld (store w) (clock w) l (updateFetches w) (intervals w) (nextId w) (log w).
Definition with_updateFetches (l : list UpdateFetch) (w : World) : World :=
  mkWorld (store w) (clock w) (pollFetches w) l (intervals w) (nextId w) (log w).
Definition with_intervals (l : list Interval) (w : World) : World :=
  mkWorld (store w) (clock w) (pollFetches w) (updateFetches w) l (nextId w) (log w).
Definition with_nextId (n : nat) (w : World) : World :=
  mkWorld (store w) (clock w) (pollFetches w) (updateFetches w) (intervals w) n (log w).
Definition add_log (e : logEntry) (w : World) : World :=
  mkWorld (store w) (clock w) (pollFetches w) (updateFetches w) (intervals w) (nextId w)
          (log w ++ [e]).

(** Synchronous code over the world: it ends normally with a value or throws. *)
Definition M (A : Type) : Type := World -> World * completion A.

Definition ret {A : Type} (a : A) : M A := fun w => (w, Normal a).

Definition throw {A : Type} (e : jsError) : M A := fun w => (w, Throw e).

Definition bind {A B : Type} (m : M A) (k : A -> M B) : M B :=
  fun w =>
    match m w with
    | (w', Normal a) => k a w'
    | (w', Throw e) => (w', Throw e)
    end.

Declare Scope thunk_scope.
Delimit Scope thunk_scope with thunk.
Notation "x <- m ;; k" := (bind m (fun x => k))
  (at level 61, m at next level, right associativity) : thunk_scope.
Notation "m ;; k" := (bind m (fun _ => k))
  (at level 61, right associativity) : thunk_scope.
Local Open Scope thunk_scope.

Definition getState : M CurrencyRateState := fun w => (w, Normal (store w)).

Definition dateNow : M N := fun w => (w, Normal (clock w)).

(** A call to an async function that is not awaited: its synchronous part
    runs, and an exception in it rejects the returned promise instead of
    reaching the caller. *)
Definition notAwaited (m : M unit) : M unit :=
  fun w =>
    match m w with
    | (w', Normal _) => (w', Normal tt)
    | (w', Throw e) => (add_log (Rejected e) w', Normal tt)
    end.

(** *** poll *)

(** [poll] up to its [await]: the fetch is started and left in flight. *)
Definition poll : M unit :=
  state <- getState ;;
  let currentCurrency := getCurrentCurrency state in
  let nativeCurrency := getNativeCurrency state in
  fetchStartTime <- dateNow ;;
  fun w =>
    (with_nextId (S (nextId w))
       (with_pollFetches
          (pollFetches w ++ [mkPollFetch (nextId w) fetchStartTime currentCurrency nativeCurrency])
          w),
     Normal tt).

(** [pollingStartTime === undefined || pollingStartTime > fetchStartTime]. *)
Definition pollMustBail (pollingStartTime : option N) (fetchStartTime : N) : bool :=
  match pollingStartTime with
  | None => true
  | Some p => (fetchStartTime <? p)%N
  end.

(** [a !== b] between a number and a possibly undefined number. *)
Definition strictNeq (a : N) (b : option N) : bool :=
  match b with
  | Some b' => negb (a =? b')%N
  | None => true
  end.

Section Store.

(** What the store's [dispatch] does with a value that is neither an action
    nor a thunk.  Redux throws; a permissive middleware may swallow it.
    [dispatch] is a parameter of the thunks ([dispatch: any]), so both are
    covered. *)
Variable rejectsNonActions : bool.

Definition notAnAction : jsError :=
  Error "Actions must be plain objects. Use custom middleware for async actions.".

(** [dispatch(action)]: the reducer runs on the slice. *)
Definition dispatchAction (a : action) : M unit :=
  fun w =>
    let w := add_log (Dispatched (Act a)) w in
    match reducer (clock w) (store w) a with
    | Normal s => (with_store s w, Normal tt)
    | Throw e => (w, Throw e)
    end.

(** [dispatch(undefined)]. *)
Definition dispatchUndefined : M unit :=
  fun w =>
    let w := add_log (Dispatched Undefined) w in
    if rejectsNonActions then (w, Throw notAnAction) else (w, Normal tt).

(** [poll] from its [await] on, when the fetch resolved with
    [conversionRate]. *)
Definition poll_resolved (fetchStartTime : N) (conversionRate : Q) : M unit :=
  updatedState <- getState ;;
  let pollingStartTime := getPollingStartTime updatedState in
  if pollMustBail pollingStartTime fetchStartTime
  then ret tt
  else dispatchAction (pollFinished conversionRate).

(** [setInterval(callback, POLLING_INTERVAL)] inside [start]. *)
Definition setInterval (pollingStartTime : N) : M unit :=
  fun w =>
    (with_nextId (S (nextId w))
       (with_intervals
          (intervals w ++ [mkInterval (nextId w) pollingStartTime (clock w + POLLING_INTERVAL)])
          w),
     Normal tt).

Definition clearInterval (intervalHandle : nat) : M unit :=
  fun w =>
    (with_intervals
       (filter (fun iv => negb (ivId iv =? intervalHandle)%nat) (intervals w)) w,
     Normal tt).

(** The thunk returned by [start(fetchExchangeRate)].  It has no [await]: it
    runs to its end when it is dispatched. *)
Definition start : M unit :=
  pollingStartTime <- dateNow ;;
  dispatchAction (pollingStarted pollingStartTime) ;;
  notAwaited poll ;;
  setInterval pollingStartTime.

(** The callback of the interval armed by [start]. *)
Definition intervalCallback (intervalHandle : nat) (pollingStartTime : N) : M unit :=
  state <- getState ;;
  let updatedPollingStartTime := getPollingStartTime state in
  if strictNeq pollingStartTime updatedPollingStartTime
  then clearInterval intervalHandle
  else notAwaited poll.

(** The exported [stop()]: it builds the [pollingStopped] action, drops it,
    and returns [undefined]. *)
Definition stop : M dispatchable :=
  let _ := Act pollingStopped in
  ret Undefined.

(** The store's [dispatch] as the thunks use it (thunk middleware). *)
Definition dispatch (d : dispatchable) : M unit :=
  match d with
  | Act a => dispatchAction a
  | StartThunk => fun w => notAwaited start (add_log (Dispatched StartThunk) w)
  | Undefined => dispatchUndefined
  end.

(** *** updateCurrency *)

(** The thunk returned by [updateCurrency] up to its [await]. *)
Definition updateCurrency (currentCurrency nativeCurrency : string) : M unit :=
  if negb (truthy currentCurrency) && negb (truthy nativeCurrency)
  then throw missingCurrency
  else
    stopped <- stop ;;
    dispatch stopped ;;
    updateStartTime <- dateNow ;;
    dispatch (Act (updateCurrencyStarted currentCurrency nativeCurrency updateStartTime)) ;;
    (* let updateReplaced = false; try { *)
    state <- getState ;;
    let pendingOrActiveCurrentCurrency := getPendingOrActiveCurrentCurrency state in
    let pendingOrActiveNativeCurrency := getPendingOrActiveNativeCurrency state in
    fun w =>
      (with_nextId (S (nextId w))
         (with_updateFetches
            (updateFetches w ++
               [mkUpdateFetch (nextId w) updateStartTime
                  pendingOrActiveCurrentCurrency pendingOrActiveNativeCurrency])
            w),
       Normal tt).

(** The rest of the [try] block once the fetch resolved.  Its value is the
    local [updateReplaced] as the block leaves it. *)
Definition updateCurrency_tryRest (updateStartTime : N) (conversionRate : Q) : M bool :=
  updatedState <- getState ;;
  let updatedUpdateStartTime := getUpdateStartTime updatedState in
  if strictNeq updateStartTime updatedUpdateStartTime
  then ret true
  else dispatch (Act (updateCurrencyFinished conversionRate)) ;; ret false.

(** [try { body } catch (error) { ... throw error } finally { ... }] of
    [updateCurrency].  [updateReplaced] is assigned on one path only, the
    last statement of its branch, so it is still [false] when [body] throws. *)
Definition updateCurrency_settle (body : M bool) : M unit :=
  fun w =>
    let '(w1, tried) := body w in
    let updateReplaced := match tried with Normal b => b | Throw _ => false end in
    (* catch (error) *)
    let '(w2, caught) :=
      match tried with
      | Normal _ => (w1, Normal tt)
      | Throw error =>
          let '(w', r) :=
            (if negb updateReplaced then dispatch (Act updateCurrencyFailed) else ret tt) w1 in
          (w', match r with Normal _ => Throw error | Throw e => Throw e end)
      end in
    (* finally *)
    let '(w3, final) := (if negb updateReplaced then dispatch StartThunk else ret tt) w2 in
    (w3, match final with Normal _ => caught | Throw e => Throw e end).

(** [updateCurrency] from its [await] on, when the fetch resolved. *)
Definition updateCurrency_resolved (updateStartTime : N) (conversionRate : Q) : M unit :=
  updateCurrency_settle (updateCurrency_tryRest updateStartTime conversionRate).

(** [updateCurrency] from its [await] on, when the fetch rejected. *)
Definition updateCurrency_rejected (error : jsError) : M unit :=
  updateCurrency_settle (throw error).

(** *** The event loop *)

Inductive event : Type :=
| Tick (ms : N)                                   (* time passes *)
| AppStart                                        (* dispatch(start()) *)
| AppStop                                         (* stop() *)
| AppDispatchStop                                 (* dispatch(stop()) *)
| AppUpdateCurrency (currentCurrency nativeCurrency : string)
                                                  (* dispatch(updateCurrency({..})) *)
| IntervalFires (intervalHandle : nat)
| PollFetchResolves (id : nat) (conversionRate : Q)
| PollFetchRejects (id : nat) (error : jsError)
| UpdateFetchResolves (id : nat) (conversionRate : Q)
| UpdateFetchRejects (id : nat) (error : jsError).

Definition findPollFetch (id : nat) (w : World) : option PollFetch :=
  find (fun p => (pfId p =? id)%nat) (pollFetches w).
Definition findUpdateFetch (id : nat) (w : World) : option UpdateFetch :=
  find (fun u => (ufId u =? id)%nat) (updateFetches w).
Definition findInterval (id : nat) (w : World) : option Interval :=
  find (fun iv => (ivId iv =? id)%nat) (intervals w).

Definition removePollFetch (id : nat) (w : World) : World :=
  with_pollFetches (filter (fun p => negb (pfId p =? id)%nat) (pollFetches w)) w.
Definition removeUpdateFetch (id : nat) (w : World) : World :=
  with_updateFetches (filter (fun u => negb (ufId u =? id)%nat) (updateFetches w)) w.

(** An interval that fired may fire again one period later. *)
Definition rearm (id : nat) (w : World) : World :=
  with_intervals
    (map (fun iv => if (ivId iv =? id)%nat
                    then mkInterval (ivId iv) (ivPollingStartTime iv) (clock w + POLLING_INTERVAL)
                    else iv)
         (intervals w)) w.

(** The end of a task of the event loop: a thrown error is the rejection of
    the promise the task belongs to. *)
Definition settle (r : World * completion unit) : World :=
  match r with
  | (w, Normal _) => w
  | (w, Throw e) => add_log (Rejected e) w
  end.

(** One task of the event loop; [None] when the event cannot happen in [w]
    (no such fetch in flight, no such interval, or a timer not yet due). *)
Definition step (ev : event) (w : World) : option World :=
  match ev with
  | Tick ms => Some (with_clock (clock w + ms) w)
  | AppStart => Some (settle (dispatch StartThunk w))
  | AppStop => Some (settle ((stop ;; ret tt) w))
  | AppDispatchStop => Some (settle ((stopped <- stop ;; dispatch stopped) w))
  | AppUpdateCurrency currentCurrency nativeCurrency =>
      Some (settle (updateCurrency currentCurrency nativeCurrency w))
  | IntervalFires id =>
      match findInterval id w with
      | Some iv =>
          if (ivDue iv <=? clock w)%N
          then Some (settle (intervalCallback id (ivPollingStartTime iv) (rearm id w)))
          else None
      | None => None
      end
  | PollFetchResolves id conversionRate =>
      match findPollFetch id w with
      | Some p =>
          Some (settle (poll_resolved (fetchStartTime p) conversionRate (removePollFetch id w)))
      | None => None
      end
  | PollFetchRejects id error =>
      match findPollFetch id w with
      | Some p => Some (add_log (Rejected error) (removePollFetch id w))
      | None => None
      end
  | UpdateFetchResolves id conversionRate =>
      match findUpdateFetch id w with
      | Some u =>
          Some (settle (updateCurrency_resolved (ufUpdateStartTime u) conversionRate
                          (removeUpdateFetch id w)))
      | None => None
      end
  | UpdateFetchRejects id error =>
      match findUpdateFetch id w with
      | Some u => Some (settle (updateCurrency_rejected error (removeUpdateFetch id w)))
      | None => None
      end
  end.

(** A run of the event loop. *)
Fixpoint run (evs : list event) (w : World) : option World :=
  match evs with
  | [] => Some w
  | ev :: evs' =>
      match step ev w with
      | Some w' => run evs' w'
      | None => None
      end
  end.

(** The worlds the program can be in: those a run reaches from the initial
    state of the slice, whatever the time at which the store is created. *)
Definition reachable (w : World) : Prop :=
  exists (now : N) (evs : list event), run evs (initialWorld now) = Some w.

End Store.

(** *** Predicates over worlds used by the statements of Part II *)

(** What one task of the event loop, or several, can change: the clock and
    the id counter only grow; each of the two start times of the store is
    kept or replaced by a reading of the clock taken meanwhile; a fetch in
    flight was in flight before or was started meanwhile. *)
Definition effects (w w' : World) : Prop :=
  (clock w <= clock w')%N /\
  (nextId w <= nextId w')%nat /\
  (pollingStartTime (store w') = pollingStartTime (store w)
   \/ exists p, pollingStartTime (store w') = Some p /\ (clock w <= p <= clock w')%N) /\
  (updateStartTime (store w') = updateStartTime (store w)
   \/ exists t, updateStartTime (store w') = Some t /\ (clock w <= t <= clock w')%N) /\
  (forall id p, findPollFetch id w' = Some p ->
     findPollFetch id w = Some p
     \/ ((nextId w <= id < nextId w')%nat
         /\ (clock w <= fetchStartTime p <= clock w')%N)) /\
  (forall id u, findUpdateFetch id w' = Some u ->
     findUpdateFetch id w = Some u
     \/ ((nextId w <= id < nextId w')%nat
         /\ (clock w <= ufUpdateStartTime u)%N
         /\ exists t, updateStartTime (store w') = Some t
                      /\ (ufUpdateStartTime u <= t <= clock w')%N)).

(** The invariant of the reachable worlds: no start time lies in the future,
    ids in use are below the counter, and the store's [updateStartTime] is at
    least the start time of every update still awaiting its fetch. *)
Definition wellFormed (w : World) : Prop :=
  (forall p, pollingStartTime (store w) = Some p -> (p <= clock w)%N) /\
  (forall t, updateStartTime (store w) = Some t -> (t <= clock w)%N) /\
  (forall id p, findPollFetch id w = Some p ->
     (id < nextId w)%nat /\ (fetchStartTime p <= clock w)%N) /\
  (forall id u, findUpdateFetch id w = Some u ->
     (id < nextId w)%nat
     /\ exists t, updateStartTime (store w) = Some t /\ (ufUpdateStartTime u <= t)%N).

(** The poll fetch [id], started at [fetchStart], is stale in [w]: polling
    has been restarted strictly later. *)
Definition stalePoll (id : nat) (fetchStart : N) (w : World) : Prop :=
  (id < nextId w)%nat /\
  (forall p, findPollFetch id w = Some p -> fetchStartTime p = fetchStart) /\
  (exists p, pollingStartTime (store w) = Some p /\ (fetchStart < p <= clock w)%N).

(** The run [id] of [updateCurrency], started at [updateStart], is superseded
    in [w]: a later run has written a different [updateStartTime]. *)
Definition supersededUpdate (id : nat) (updateStart : N) (w : World) : Prop :=
  (id < nextId w)%nat /\
  (forall u, findUpdateFetch id w = Some u -> ufUpdateStartTime u = updateStart) /\
  (exists t, updateStartTime (store w) = Some t /\ (updateStart < t <= clock w)%N).

(** While polling is on, an interval of the current polling session is
    armed; the ids of the intervals are distinct and below the counter. *)
Definition pollingArmed (w : World) : Prop :=
  (forall iv, In iv (intervals w) -> (ivId iv < nextId w)%nat) /\
  NoDup (map ivId (intervals w)) /\
  (forall p, pollingStartTime (store w) = Some p ->
     exists iv, In iv (intervals w) /\ ivPollingStartTime iv = p).

(** The currencies of the store and of the fetches in flight: the current
    currency is not empty, the native currency is the initial one, and the
    fetches were asked for such currencies. *)
Definition fetchedCurrencies (w : World) : Prop :=
  truthy (currentCurrency (store w)) = true /\
  nativeCurrency (store w) = "ETH" /\
  (forall p, In p (pollFetches w) ->
     truthy (pfCurrentCurrency p) = true /\ pfNativeCurrency p = "ETH") /\
  (forall u, In u (updateFetches w) ->
     truthy (ufCurrentCurrency u) = true /\ truthy (ufNativeCurrency u) = true).

End CurrencyRate.

(** * Part II: properties *)

Module SwapsProofs.
Import Js Swaps.

(** ** The state of the controller *)

(** C8.  [resetPostFetchState] writes back what it read: the state after the
    call is the state before it, field by field ([quotes], [fetchParams],
    [tokens], [quotesLastFetched], [errorKey], [topAggId] and
    [swapsFeatureIsLive]). *)
Theorem resetPostFetchState_keeps_state (this : SwapsController) :
  state (resetPostFetchState this) = state this.
Proof.
  destruct this as [[q fp tk lf ek top live] [timer|] timers next]; reflexivity.
Qed.

(** C9.  [setQuotesLastFetched q] writes [q] to the [quotes] field; the
    [quotesLastFetched] field and every other field keep their values, and so
    do the handle and the timeouts. *)
Theorem setQuotesLastFetched_writes_quotes_only (q : SwapsQuotes) (this : SwapsController) :
  let this' := setQuotesLastFetched q this in
  SwapsState.quotes (state this') = q
  /\ SwapsState.quotesLastFetched (state this') = SwapsState.quotesLastFetched (state this)
  /\ SwapsState.fetchParams (state this') = SwapsState.fetchParams (state this)
  /\ SwapsState.tokens (state this') = SwapsState.tokens (state this)
  /\ SwapsState.errorKey (state this') = SwapsState.errorKey (state this)
  /\ SwapsState.topAggId (state this') = SwapsState.topAggId (state this)
  /\ SwapsState.swapsFeatureIsLive (state this') = SwapsState.swapsFeatureIsLive (state this)
  /\ handle this' = handle this
  /\ armed this' = armed this.
Proof.
  unfold setQuotesLastFetched, update, merge; simpl.
  repeat split.
Qed.

Lemma fetchAndSetQuotes_null metaData isPolled customGasPrice (this : SwapsController) :
  fetchAndSetQuotes None metaData isPolled customGasPrice this = (this, ResolvedNull).
Proof. reflexivity. Qed.

Lemma state_clearHandle (this : SwapsController) : state (clearHandle this) = state this.
Proof. unfold clearHandle. destruct (handle this); reflexivity. Qed.

Lemma state_timeoutFires timer (this this' : SwapsController) :
  timeoutFires timer this = Some this' -> state this' = state this.
Proof.
  unfold timeoutFires. destruct (existsb _ _); [|discriminate].
  intro H; injection H as <-. reflexivity.
Qed.

Lemma state_fireTimeouts timers : forall this, state (fireTimeouts timers this) = state this.
Proof.
  induction timers as [|timer rest IH]; intro this; simpl; [reflexivity|].
  destruct (timeoutFires timer this) as [this'|] eqn:F; rewrite IH; [|reflexivity].
  eapply state_timeoutFires; eassumption.
Qed.

(** C10.  Called with [fetchParams = null], [fetchAndSetQuotes] resolves to
    [null] and leaves the controller as it was.  [pollForNewQuotes] only
    calls it that way, now and from its timeout, so the state after
    [pollForNewQuotes] and after any timeouts that fire is the state
    before. *)
Theorem fetchAndSetQuotes_null_keeps_state :
  (forall metaData isPolled customGasPrice this,
      fetchAndSetQuotes None metaData isPolled customGasPrice this = (this, ResolvedNull))
  /\ (forall this, state (pollForNewQuotes this) = state this)
  /\ (forall this timers,
         state (fireTimeouts timers (pollForNewQuotes this)) = state this).
Proof.
  split; [|split].
  - intros; reflexivity.
  - intro this. unfold pollForNewQuotes. simpl. apply state_clearHandle.
  - intros this timers. rewrite state_fireTimeouts.
    unfold pollForNewQuotes. simpl. apply state_clearHandle.
Qed.

(** ** The controller in use *)

Lemma lookup_withField (key k : string) (v : JsValue) (obj : list (string * JsValue)) :
  lookup k (withField key v obj) = if (key =? k)%string then Some v else lookup k obj.
Proof.
  induction obj as [|[k0 old] rest IH]; simpl.
  - reflexivity.
  - destruct (k0 =? key)%string eqn:E0; simpl.
    + apply String.eqb_eq in E0. subst k0.
      destruct (key =? k)%string; reflexivity.
    + rewrite IH. destruct (k0 =? k)%string eqn:E1; [|reflexivity].
      apply String.eqb_eq in E1. subst k0. rewrite String.eqb_sym, E0. reflexivity.
Qed.

Lemma withField_idempotent (key : string) (v : JsValue) (obj : list (string * JsValue)) :
  withField key v (withField key v obj) = withField key v obj.
Proof.
  induction obj as [|[k0 old] rest IH]; simpl.
  - rewrite String.eqb_refl. reflexivity.
  - destruct (k0 =? key)%string eqn:E0; simpl; rewrite E0; [reflexivity|].
    rewrite IH. reflexivity.
Qed.

Lemma oneTimer_clearHandle (this : SwapsController) :
  oneTimer this -> armed (clearHandle this) = [].
Proof.
  unfold oneTimer, clearHandle. intros [E | (timer & Hh & Ha)].
  - destruct (handle this); simpl; rewrite E; reflexivity.
  - rewrite Hh. simpl. rewrite Ha. simpl. rewrite Nat.eqb_refl. reflexivity.
Qed.

Lemma oneTimer_nothing_armed (this : SwapsController) :
  armed this = [] -> oneTimer this.
Proof. intro E. left. exact E. Qed.

Lemma oneTimer_perform (call : Call) (this : SwapsController) :
  oneTimer this -> oneTimer (perform call this).
Proof.
  intro H.
  destruct call as [tk|ek|q|live| | |[params|] md isPolled cgp| | |timer]; simpl;
    try exact H.
  - (* pollForNewQuotes *)
    right. exists (nextTimer (clearHandle this)). unfold pollForNewQuotes. simpl.
    rewrite (oneTimer_clearHandle this H). split; reflexivity.
  - (* stopPollingForQuotes *)
    apply oneTimer_nothing_armed, oneTimer_clearHandle, H.
  - (* fetchAndSetQuotes with parameters *)
    apply oneTimer_nothing_armed.
    destruct isPolled; simpl; apply oneTimer_clearHandle, H.
  - (* safeRefetchQuotes *)
    unfold safeRefetchQuotes.
    destruct (handle this) eqn:Hh; [exact H|].
    destruct (SwapsState.fetchParams (state this)); [|exact H].
    apply oneTimer_nothing_armed. simpl. apply oneTimer_clearHandle, H.
  - (* resetPostFetchState *)
    apply oneTimer_nothing_armed. unfold resetPostFetchState.
    apply oneTimer_clearHandle. exact H.
  - (* a timeout elapses *)
    unfold timeoutFires.
    destruct (existsb _ (armed this)) eqn:E; [|exact H].
    apply oneTimer_nothing_armed. simpl.
    destruct H as [Ha | (t & Hh & Ha)]; rewrite Ha in *; simpl in *; [discriminate|].
    rewrite orb_false_r in E. rewrite E. reflexivity.
Qed.

Lemma oneTimer_performAll (calls : list Call) :
  forall this, oneTimer this -> oneTimer (performAll calls this).
Proof.
  unfold performAll.
  induction calls as [|call rest IH]; intros this H; simpl; [exact H|].
  apply IH, oneTimer_perform, H.
Qed.

Lemma performAll_app (calls1 calls2 : list Call) (this : SwapsController) :
  performAll (calls1 ++ calls2) this = performAll calls2 (performAll calls1 this).
Proof. unfold performAll. apply fold_left_app. Qed.

Lemma handle_clearHandle (this : SwapsController) : handle (clearHandle this) = handle this.
Proof. unfold clearHandle. destruct (handle this) eqn:E; simpl; congruence. Qed.

(** Nothing assigns [undefined] to [this.handle]. *)
Lemma handle_perform (call : Call) (this : SwapsController) :
  handle this <> None -> handle (perform call this) <> None.
Proof.
  intro H.
  destruct call as [tk|ek|q|live| | |[params|] md isPolled cgp| | |timer]; cbn [perform];
    try exact H.
  - discriminate.
  - unfold stopPollingForQuotes. rewrite handle_clearHandle. exact H.
  - destruct isPolled; simpl; rewrite handle_clearHandle; exact H.
  - unfold safeRefetchQuotes. destruct (handle this) eqn:E; congruence.
  - unfold resetPostFetchState. rewrite handle_clearHandle. exact H.
  - unfold timeoutFires. destruct (existsb _ _); exact H.
Qed.

Lemma handle_performAll (calls : list Call) :
  forall this, handle this <> None -> handle (performAll calls this) <> None.
Proof.
  unfold performAll.
  induction calls as [|call rest IH]; intros this H; simpl; [exact H|].
  apply IH, handle_perform, H.
Qed.

(** X6.  Whatever methods are called on a new controller, and whichever
    timeouts elapse in between, at most one timeout is armed at any time,
    and it is the one that [this.handle] holds: every statement that arms a
    timeout clears the one of the handle first. *)
Theorem at_most_one_timeout_is_armed (calls : list Call) :
  let this := performAll calls newController in
  armed this = [] \/ exists timer, handle this = Some timer /\ armed this = [timer].
Proof.
  apply (oneTimer_performAll calls newController). left. reflexivity.
Qed.

(** X7.  After [stopPollingForQuotes], after [resetPostFetchState] and after
    a [fetchAndSetQuotes] with parameters, no timeout is armed: no callback
    of [pollForNewQuotes] runs any more, whatever was called on the
    controller before. *)
Theorem stop_reset_and_fetch_leave_no_timeout_armed (calls : list Call)
  (params md : list (string * JsValue)) (isPolled : bool) (customGasPrice : option string) :
  let this := performAll calls newController in
  (armed (stopPollingForQuotes this) = []
   /\ forall timer, timeoutFires timer (stopPollingForQuotes this) = None)
  /\ (armed (resetPostFetchState this) = []
      /\ forall timer, timeoutFires timer (resetPostFetchState this) = None)
  /\ (armed (fst (fetchAndSetQuotes (Some params) md isPolled customGasPrice this)) = []
      /\ forall timer,
           timeoutFires timer
             (fst (fetchAndSetQuotes (Some params) md isPolled customGasPrice this)) = None).
Proof.
  intro this.
  assert (H : oneTimer this) by (apply oneTimer_performAll; left; reflexivity).
  assert (Hnone : forall that, armed that = [] -> forall timer, timeoutFires timer that = None).
  { intros that E timer. unfold timeoutFires. rewrite E. reflexivity. }
  assert (E1 : armed (stopPollingForQuotes this) = []) by (apply oneTimer_clearHandle, H).
  assert (E2 : armed (resetPostFetchState this) = []).
  { unfold resetPostFetchState. apply oneTimer_clearHandle. exact H. }
  assert (E3 : armed (fst (fetchAndSetQuotes (Some params) md isPolled customGasPrice this))
               = []).
  { destruct isPolled; simpl; apply oneTimer_clearHandle, H. }
  repeat split; auto.
Qed.

(** X8.  The timeout of [pollForNewQuotes] is not renewed.  After
    [pollForNewQuotes] exactly one timeout is armed; when it elapses its
    callback changes nothing in the state and arms no other: quotes are
    polled for once, not periodically. *)
Theorem pollForNewQuotes_polls_once (calls : list Call) :
  let this := pollForNewQuotes (performAll calls newController) in
  exists timer,
    handle this = Some timer
    /\ armed this = [timer]
    /\ exists this',
         timeoutFires timer this = Some this'
         /\ state this' = state this
         /\ armed this' = []
         /\ forall later, timeoutFires later this' = None.
Proof.
  intro this.
  assert (H : oneTimer (performAll calls newController))
    by (apply oneTimer_performAll; left; reflexivity).
  exists (nextTimer (clearHandle (performAll calls newController))).
  assert (Ha : armed this = [nextTimer (clearHandle (performAll calls newController))]).
  { unfold this, pollForNewQuotes. simpl. rewrite (oneTimer_clearHandle _ H). reflexivity. }
  split; [reflexivity|]. split; [exact Ha|].
  set (timer := nextTimer (clearHandle (performAll calls newController))) in *.
  exists (pollCallback (clearTimeout timer this)).
  assert (Ea : armed (pollCallback (clearTimeout timer this)) = []).
  { unfold pollCallback. cbn [fetchAndSetQuotes fst clearTimeout armed].
    rewrite Ha. simpl. rewrite Nat.eqb_refl. reflexivity. }
  split; [|split; [reflexivity | split; [exact Ea|]]].
  - unfold timeoutFires. rewrite Ha. simpl. rewrite Nat.eqb_refl. reflexivity.
  - intro later. unfold timeoutFires. rewrite Ea. reflexivity.
Qed.

(** X9.  Once [pollForNewQuotes] has been called, [safeRefetchQuotes] does
    nothing, whatever is called afterwards: [this.handle] is assigned by
    [pollForNewQuotes] only and is never reset, not by
    [stopPollingForQuotes], not by [resetPostFetchState] and not when the
    timeout has elapsed, so [!this.handle] stays false. *)
Theorem safeRefetchQuotes_does_nothing_after_polling (before after : list Call) :
  let this := performAll (before ++ CallPollForNewQuotes :: after) newController in
  handle this <> None /\ safeRefetchQuotes this = this.
Proof.
  intro this.
  assert (H : handle this <> None).
  { unfold this. rewrite performAll_app.
    change (performAll (CallPollForNewQuotes :: after) ?c)
      with (performAll after (pollForNewQuotes c)).
    apply handle_performAll. discriminate. }
  split; [exact H|].
  unfold safeRefetchQuotes. destruct (handle this); [reflexivity | contradiction].
Qed.

Lemma never_written_perform (call : Call) (this : SwapsController) :
  SwapsState.topAggId (state (perform call this)) = SwapsState.topAggId (state this)
  /\ SwapsState.quotesLastFetched (state (perform call this))
     = SwapsState.quotesLastFetched (state this).
Proof.
  destruct call as [tk|ek|q|live| | |[params|] md isPolled cgp| | |timer]; simpl;
    try (split; reflexivity).
  - unfold pollForNewQuotes. simpl. rewrite state_clearHandle. split; reflexivity.
  - unfold stopPollingForQuotes. rewrite state_clearHandle. split; reflexivity.
  - destruct isPolled; simpl; rewrite state_clearHandle; split; reflexivity.
  - unfold safeRefetchQuotes.
    destruct (handle this); [split; reflexivity|].
    destruct (SwapsState.fetchParams (state this)); [|split; reflexivity].
    simpl. rewrite state_clearHandle. split; reflexivity.
  - unfold resetPostFetchState. rewrite state_clearHandle. split; reflexivity.
  - destruct (timeoutFires timer this) as [this'|] eqn:F; [|split; reflexivity].
    rewrite (state_timeoutFires _ _ _ F). split; reflexivity.
Qed.

(** X10.  No method of the controller writes [topAggId] or
    [quotesLastFetched]: after any calls and timeouts they have the values
    they had, so on a new controller they are [null] for ever.
    ([setQuotesLastFetched] writes [quotes].) *)
Theorem topAggId_and_quotesLastFetched_are_never_written
  (calls : list Call) (this : SwapsController) :
  SwapsState.topAggId (state (performAll calls this)) = SwapsState.topAggId (state this)
  /\ SwapsState.quotesLastFetched (state (performAll calls this))
     = SwapsState.quotesLastFetched (state this).
Proof.
  unfold performAll. revert this.
  induction calls as [|call rest IH]; intro this; simpl; [split; reflexivity|].
  destruct (IH (perform call this)) as [Et Eq].
  destruct (never_written_perform call this) as [Et' Eq'].
  split; congruence.
Qed.

(** X11.  [fetchAndSetQuotes] with parameters resolves to [undefined] and
    stores the parameters: afterwards [fetchParams.metaData] is the given
    meta data and every other key of [fetchParams] has the value given for
    it.  [errorKey] is reset to [null] unless the request is a polled one;
    no other field of the state changes, and the handle keeps its value, its
    timeout disarmed. *)
Theorem fetchAndSetQuotes_stores_the_parameters
  (params md : list (string * JsValue)) (isPolled : bool) (customGasPrice : option string)
  (this : SwapsController) :
  let result := fetchAndSetQuotes (Some params) md isPolled customGasPrice this in
  let this' := fst result in
  snd result = ResolvedUndefined
  /\ (exists stored,
        SwapsState.fetchParams (state this') = Some stored
        /\ lookup "metaData" stored = Some (JsObject md)
        /\ forall key, key <> "metaData" -> lookup key stored = lookup key params)
  /\ SwapsState.errorKey (state this')
     = (if isPolled then SwapsState.errorKey (state this) else None)
  /\ SwapsState.quotes (state this') = SwapsState.quotes (state this)
  /\ SwapsState.tokens (state this') = SwapsState.tokens (state this)
  /\ SwapsState.quotesLastFetched (state this') = SwapsState.quotesLastFetched (state this)
  /\ SwapsState.topAggId (state this') = SwapsState.topAggId (state this)
  /\ SwapsState.swapsFeatureIsLive (state this') = SwapsState.swapsFeatureIsLive (state this)
  /\ handle this' = handle this
  /\ forall timer, handle this = Some timer -> ~ In timer (armed this').
Proof.
  cbv zeta. split; [reflexivity|]. split.
  - exists (withField "metaData" (JsObject md) params).
    split; [reflexivity|]. split.
    + rewrite lookup_withField. reflexivity.
    + intros key Hkey. rewrite lookup_withField.
      destruct ("metaData" =? key)%string eqn:E; [|reflexivity].
      apply String.eqb_eq in E. congruence.
  - destruct isPolled; simpl; rewrite ?state_clearHandle, ?handle_clearHandle;
      (repeat split; try reflexivity);
      intros timer Hh; unfold clearHandle; rewrite Hh; simpl;
      rewrite filter_In; intros [_ Hneq]; rewrite Nat.eqb_refl in Hneq; discriminate.
Qed.

(** X12.  Calling [safeRefetchQuotes] twice is calling it once: the second
    call finds [errorKey] reset and [fetchParams.metaData] empty already,
    and writes the same again. *)
Theorem safeRefetchQuotes_is_idempotent (this : SwapsController) :
  safeRefetchQuotes (safeRefetchQuotes this) = safeRefetchQuotes this.
Proof.
  unfold safeRefetchQuotes.
  destruct this as [[q fp tk lf ek top live] [timer|] timers next]; simpl; [reflexivity|].
  destruct fp as [params|]; simpl; [|reflexivity].
  unfold update, merge; simpl. rewrite withField_idempotent. reflexivity.
Qed.

(** ** Best-quote selection *)

Section BestQuoteSelection.

Context {lib : BigNumberLib}.
Variable calcTokenAmount : Value BigNumber -> N -> BigNumber.
Variable getMedian : list BigNumber -> BigNumber.
Variable contractExchangeRates : list (string * Q).
Variable getGasPrice : completion string.

Local Abbreviation valueOf := (ethValueOfTrade calcTokenAmount contractExchangeRates).
Local Abbreviation step := (forEachQuote calcTokenAmount contractExchangeRates).

(** The callback replaces the best quote only by one whose value is greater:
    quotes that do not beat the current best leave it as it is. *)
Lemma forEach_keeps_best usedGasPrice (quotesValues : list Quote) :
  forall l : Locals,
    (forall quote, In quote quotesValues ->
       bn_gt (valueOf usedGasPrice quote) (Big (l_ethTradeValueOfBestQuote l)) = false) ->
    l_topAggId (fold_left (step usedGasPrice) quotesValues l) = l_topAggId l
    /\ l_ethTradeValueOfBestQuote (fold_left (step usedGasPrice) quotesValues l)
       = l_ethTradeValueOfBestQuote l.
Proof.
  induction quotesValues as [|quote rest IH]; intros l Hle; simpl; [split; reflexivity|].
  assert (Hq : bn_gt (valueOf usedGasPrice quote) (Big (l_ethTradeValueOfBestQuote l)) = false)
    by (apply Hle; left; reflexivity).
  assert (Hstep : l_topAggId (step usedGasPrice l quote) = l_topAggId l
                  /\ l_ethTradeValueOfBestQuote (step usedGasPrice l quote)
                     = l_ethTradeValueOfBestQuote l).
  { unfold forEachQuote, ethValueOfTrade in *.
    destruct (quoteValues calcTokenAmount contractExchangeRates usedGasPrice quote)
      as [v f]. simpl in Hq. rewrite Hq. split; reflexivity. }
  destruct Hstep as [Htop Hbest].
  destruct (IH (step usedGasPrice l quote)) as [IHtop IHbest].
  - intros q Hin. rewrite Hbest. apply Hle. right. assumption.
  - split; congruence.
Qed.

(** X2.  When no quote of the map has a trade value greater than zero, [topAggId]
    is still the empty string after the loop, and reading
    [quotes[topAggId].destinationToken] throws. *)
Lemma getBestQuoteAndEthValues_throws_without_a_positive_quote
  (quotes : SwapsQuotes) (customGasPrice : string) :
  truthy customGasPrice = true ->
  (forall key quote, In (key, quote) quotes ->
     bn_gt (valueOf customGasPrice quote) (Big bnZero) = false) ->
  lookup "" quotes = None ->
  getBestQuoteAndEthValues calcTokenAmount contractExchangeRates getGasPrice
    quotes customGasPrice
  = Throw cannotReadDestinationToken.
Proof.
  intros Hgas Hle Hkey. unfold getBestQuoteAndEthValues. rewrite Hgas.
  destruct (forEach_keeps_best customGasPrice (map snd quotes) initialLocals) as [Htop _].
  - intros quote Hin. apply in_map_iff in Hin. destruct Hin as [[key q] [<- Hin]].
    exact (Hle key q Hin).
  - cbv zeta. rewrite Htop. simpl. unfold getProperty. rewrite Hkey. reflexivity.
Qed.

(** *** What the loop does select

    The library's [gt] is taken to be a strict order on the values at hand:
    never true of a value and itself, and transitive. *)
Hypothesis gt_irreflexive : forall x : BigNumber, bn_gt x (Big x) = false.
Hypothesis gt_transitive :
  forall x y z : BigNumber,
    bn_gt x (Big y) = true -> bn_gt y (Big z) = true -> bn_gt x (Big z) = true.

Lemma gt_asymmetric (x y : BigNumber) : bn_gt x (Big y) = true -> bn_gt y (Big x) = false.
Proof.
  intro Hxy. destruct (bn_gt y (Big x)) eqn:Hyx; [|reflexivity].
  rewrite <- (gt_irreflexive x). symmetry. eapply gt_transitive; eassumption.
Qed.

Lemma step_best usedGasPrice (l : Locals) (quote : Quote) :
  (bn_gt (valueOf usedGasPrice quote) (Big (l_ethTradeValueOfBestQuote l)) = true
   /\ l_topAggId (step usedGasPrice l quote) = aggregator quote
   /\ l_ethTradeValueOfBestQuote (step usedGasPrice l quote) = valueOf usedGasPrice quote)
  \/ (bn_gt (valueOf usedGasPrice quote) (Big (l_ethTradeValueOfBestQuote l)) = false
      /\ l_topAggId (step usedGasPrice l quote) = l_topAggId l
      /\ l_ethTradeValueOfBestQuote (step usedGasPrice l quote)
         = l_ethTradeValueOfBestQuote l).
Proof.
  unfold forEachQuote, ethValueOfTrade.
  destruct (quoteValues calcTokenAmount contractExchangeRates usedGasPrice quote) as [v f].
  simpl. destruct (bn_gt v (Big (l_ethTradeValueOfBestQuote l))); [left | right]; auto.
Qed.

(** After the loop, either no quote beat the best value the loop started
    from, or the best quote is one of the list, it beats the starting value,
    and no quote of the list is greater. *)
Lemma forEach_selects_a_maximum usedGasPrice (quotesValues : list Quote) :
  forall l : Locals,
    let l' := fold_left (step usedGasPrice) quotesValues l in
    (l_topAggId l' = l_topAggId l
     /\ l_ethTradeValueOfBestQuote l' = l_ethTradeValueOfBestQuote l
     /\ forall quote, In quote quotesValues ->
          bn_gt (valueOf usedGasPrice quote) (Big (l_ethTradeValueOfBestQuote l)) = false)
    \/ (exists best, In best quotesValues
          /\ l_topAggId l' = aggregator best
          /\ l_ethTradeValueOfBestQuote l' = valueOf usedGasPrice best
          /\ bn_gt (valueOf usedGasPrice best) (Big (l_ethTradeValueOfBestQuote l)) = true
          /\ forall quote, In quote quotesValues ->
               bn_gt (valueOf usedGasPrice quote) (Big (valueOf usedGasPrice best)) = false).
Proof.
  induction quotesValues as [|quote rest IH]; intro l; cbv zeta.
  - left. repeat split. intros q [].
  - cbn [fold_left].
    specialize (IH (step usedGasPrice l quote)). cbv zeta in IH.
    destruct (step_best usedGasPrice l quote) as [(Hgt & Htop & Hbest) | (Hle & Htop & Hbest)];
      rewrite Htop, Hbest in IH;
      destruct IH as [(Etop & Ebest & Hrest) | (best & Hin & Etop & Ebest & Hbeats & Hrest)].
    + (* quote becomes the best and stays it *)
      right. exists quote. split; [left; reflexivity|]. repeat split; try assumption.
      intros q [<- | Hq]; [apply gt_irreflexive | apply Hrest; assumption].
    + (* quote becomes the best, a later one replaces it *)
      right. exists best. split; [right; assumption|]. repeat split; try assumption.
      * eapply gt_transitive; eassumption.
      * intros q [<- | Hq]; [apply gt_asymmetric; assumption | apply Hrest; assumption].
    + (* quote does not beat the best, nor does a later one *)
      left. repeat split; try assumption.
      intros q [<- | Hq]; [assumption | apply Hrest; assumption].
    + (* quote does not beat the best, a later one does *)
      right. exists best. split; [right; assumption|]. repeat split; try assumption.
      intros q [<- | Hq]; [|apply Hrest; assumption].
      destruct (bn_gt (valueOf usedGasPrice quote) (Big (valueOf usedGasPrice best))) eqn:G;
        [|reflexivity].
      rewrite <- Hle. symmetry. eapply gt_transitive; eassumption.
Qed.

Lemma lookup_In {A : Type} (key : string) (v : A) (obj : list (string * A)) :
  In (key, v) obj -> exists v', lookup key obj = Some v'.
Proof.
  induction obj as [|[k x] rest IH]; simpl; [intros []|].
  intros [E | Hin].
  - injection E as -> ->. rewrite String.eqb_refl. eexists; reflexivity.
  - destruct (k =? key); [eexists; reflexivity | apply IH; assumption].
Qed.

(** X1.  When every quote is stored under its aggregator id and some quote has a
    trade value greater than zero, [getBestQuoteAndEthValues] returns, its
    [topAggId] is the aggregator id of a quote of the map, its
    [ethTradeValueOfBestQuote] is the value computed for that quote, and no
    quote of the map has a greater value. *)
Theorem getBestQuoteAndEthValues_selects_a_maximal_quote
  (quotes : SwapsQuotes) (customGasPrice : string) :
  truthy customGasPrice = true ->
  (forall key quote, In (key, quote) quotes -> aggregator quote = key) ->
  (exists key quote, In (key, quote) quotes
     /\ bn_gt (valueOf customGasPrice quote) (Big bnZero) = true) ->
  exists result key best,
    getBestQuoteAndEthValues calcTokenAmount contractExchangeRates getGasPrice
      quotes customGasPrice = Normal result
    /\ In (key, best) quotes
    /\ topAggId (bestQuote result) = key
    /\ ethTradeValueOfBestQuote (bestQuote result) = valueOf customGasPrice best
    /\ forall key' quote, In (key', quote) quotes ->
         bn_gt (valueOf customGasPrice quote)
               (Big (ethTradeValueOfBestQuote (bestQuote result))) = false.
Proof.
  intros Hgas Hkeys (k0 & q0 & Hin0 & Hpos).
  unfold getBestQuoteAndEthValues. rewrite Hgas. cbv zeta.
  pose proof (forEach_selects_a_maximum customGasPrice (map snd quotes) initialLocals) as Hsel.
  cbv zeta in Hsel.
  destruct Hsel as [(_ & _ & Hnone) | (best & Hin & Etop & Ebest & _ & Hmax)].
  - exfalso. specialize (Hnone q0). simpl in Hnone. rewrite Hnone in Hpos; [discriminate|].
    apply in_map_iff. exists (k0, q0). split; [reflexivity | assumption].
  - apply in_map_iff in Hin. destruct Hin as [[key q] [Esnd Hin]]. simpl in Esnd. subst q.
    pose proof (Hkeys key best Hin) as Ekey.
    destruct (lookup_In key best quotes Hin) as [top Htop].
    rewrite Etop, Ekey. unfold getProperty. rewrite Htop.
    eexists. exists key, best. split; [reflexivity|]. simpl.
    split; [assumption|]. split; [reflexivity|]. split; [assumption|].
    intros key' quote Hq. rewrite Ebest. apply Hmax.
    apply in_map_iff. exists (key', quote). split; [reflexivity | assumption].
Qed.

End BestQuoteSelection.

(** *** What the result is made of *)

Section BestQuoteResult.

Context {lib : BigNumberLib}.
Variable calcTokenAmount : Value BigNumber -> N -> BigNumber.
Variable getMedian : list BigNumber -> BigNumber.
Variable contractExchangeRates : list (string * Q).
Variable getGasPrice : completion string.

Local Abbreviation valuesOf := (quoteValues calcTokenAmount contractExchangeRates).
Local Abbreviation step := (forEachQuote calcTokenAmount contractExchangeRates).

(** The gas price the loop computes with: [customGasPrice ||
    (await this.getGasPrice())]. *)
Local Abbreviation usedGasPriceIs customGasPrice usedGasPrice :=
  ((if truthy customGasPrice%string then Normal customGasPrice%string else getGasPrice)
   = Normal usedGasPrice).

Lemma forEach_collects usedGasPrice (quotesValues : list Quote) :
  forall l : Locals,
    l_allEthTradeValues (fold_left (step usedGasPrice) quotesValues l)
    = l_allEthTradeValues l ++ map (fun quote => fst (valuesOf usedGasPrice quote)) quotesValues
    /\ l_allEthFees (fold_left (step usedGasPrice) quotesValues l)
       = l_allEthFees l ++ map (fun quote => snd (valuesOf usedGasPrice quote)) quotesValues.
Proof.
  induction quotesValues as [|quote rest IH]; intro l; cbn [fold_left map].
  - rewrite !app_nil_r. split; reflexivity.
  - destruct (IH (step usedGasPrice l quote)) as [IHv IHf]. rewrite IHv, IHf.
    clear IH IHv IHf. unfold forEachQuote.
    generalize (valuesOf usedGasPrice quote). intros [v f].
    cbn [fst snd map].
    destruct (bn_gt v (Big (l_ethTradeValueOfBestQuote l)));
      cbn [l_allEthTradeValues l_allEthFees];
      rewrite <- !app_assoc; split; reflexivity.
Qed.

(** The best id, value and fee are written together: after the loop they
    are the three initial values, or the aggregator, value and fee of one
    quote of the list. *)
Lemma forEach_best_is_one_quote usedGasPrice (quotesValues : list Quote) :
  forall l : Locals,
    let l' := fold_left (step usedGasPrice) quotesValues l in
    (l_topAggId l' = l_topAggId l
     /\ l_ethTradeValueOfBestQuote l' = l_ethTradeValueOfBestQuote l
     /\ l_ethFeeForBestQuote l' = l_ethFeeForBestQuote l)
    \/ (exists quote, In quote quotesValues
          /\ l_topAggId l' = aggregator quote
          /\ l_ethTradeValueOfBestQuote l' = fst (valuesOf usedGasPrice quote)
          /\ l_ethFeeForBestQuote l' = snd (valuesOf usedGasPrice quote)).
Proof.
  induction quotesValues as [|quote rest IH]; intro l; cbv zeta.
  - left. repeat split.
  - cbn [fold_left].
    destruct (IH (step usedGasPrice l quote)) as [(Et & Ev & Ef) | (q & Hin & Et & Ev & Ef)].
    + rewrite Et, Ev, Ef. clear IH Et Ev Ef. unfold forEachQuote.
      remember (valuesOf usedGasPrice quote) as computed eqn:V.
      destruct computed as [v f].
      destruct (bn_gt v (Big (l_ethTradeValueOfBestQuote l)));
        cbn [l_topAggId l_ethTradeValueOfBestQuote l_ethFeeForBestQuote].
      * right. exists quote. rewrite <- V. repeat split. left; reflexivity.
      * left. repeat split.
    + right. exists q. repeat split; try assumption. right; assumption.
Qed.

(** X4.  Whenever [getBestQuoteAndEthValues] returns, [allEthTradeValues] and
    [allEthFees] hold the value and the fee of every quote of the map, in
    the order of the map, computed with the custom gas price or, when that
    is empty, with the gas price of the network. *)
Theorem getBestQuoteAndEthValues_collects_every_quote
  (quotes : SwapsQuotes) (customGasPrice : string) (result : SwapsBestQuoteAndSwapValues) :
  getBestQuoteAndEthValues calcTokenAmount contractExchangeRates getGasPrice
    quotes customGasPrice = Normal result ->
  exists usedGasPrice,
    usedGasPriceIs customGasPrice usedGasPrice
    /\ allEthTradeValues (values result)
       = map (fun entry => fst (valuesOf usedGasPrice (snd entry))) quotes
    /\ allEthFees (values result)
       = map (fun entry => snd (valuesOf usedGasPrice (snd entry))) quotes.
Proof.
  unfold getBestQuoteAndEthValues.
  destruct (if truthy customGasPrice then Normal customGasPrice else getGasPrice)
    as [usedGasPrice|e]; [|discriminate].
  cbv zeta.
  destruct (forEach_collects usedGasPrice (map snd quotes) initialLocals) as [Ev Ef].
  destruct (getProperty _ quotes) as [top|text|]; [| |discriminate];
    intro H; injection H as <-; exists usedGasPrice; (split; [reflexivity|]); simpl;
    rewrite Ev, Ef; simpl; rewrite !map_map; split; reflexivity.
Qed.

(** X5.  Whenever [getBestQuoteAndEthValues] returns, [topAggId],
    [ethTradeValueOfBestQuote] and [ethFeeForBestQuote] belong together:
    they are the aggregator, the value and the fee of one quote of the map,
    unless no quote was selected and they are [''], 0 and 0. *)
Theorem getBestQuoteAndEthValues_best_is_one_quote
  (quotes : SwapsQuotes) (customGasPrice : string) (result : SwapsBestQuoteAndSwapValues) :
  getBestQuoteAndEthValues calcTokenAmount contractExchangeRates getGasPrice
    quotes customGasPrice = Normal result ->
  exists usedGasPrice,
    usedGasPriceIs customGasPrice usedGasPrice
    /\ ((topAggId (bestQuote result) = ""
         /\ ethTradeValueOfBestQuote (bestQuote result) = bnZero
         /\ ethFeeForBestQuote (bestQuote result) = bnZero)
        \/ (exists key quote, In (key, quote) quotes
              /\ topAggId (bestQuote result) = aggregator quote
              /\ ethTradeValueOfBestQuote (bestQuote result)
                 = fst (valuesOf usedGasPrice quote)
              /\ ethFeeForBestQuote (bestQuote result)
                 = snd (valuesOf usedGasPrice quote))).
Proof.
  unfold getBestQuoteAndEthValues.
  destruct (if truthy customGasPrice then Normal customGasPrice else getGasPrice)
    as [usedGasPrice|e]; [|discriminate].
  cbv zeta.
  pose proof (forEach_best_is_one_quote usedGasPrice (map snd quotes) initialLocals) as Hb.
  cbv zeta in Hb.
  assert (Hfields :
    (l_topAggId (fold_left (step usedGasPrice) (map snd quotes) initialLocals) = ""
     /\ l_ethTradeValueOfBestQuote (fold_left (step usedGasPrice) (map snd quotes) initialLocals)
        = bnZero
     /\ l_ethFeeForBestQuote (fold_left (step usedGasPrice) (map snd quotes) initialLocals)
        = bnZero)
    \/ (exists key quote, In (key, quote) quotes
          /\ l_topAggId (fold_left (step usedGasPrice) (map snd quotes) initialLocals)
             = aggregator quote
          /\ l_ethTradeValueOfBestQuote
               (fold_left (step usedGasPrice) (map snd quotes) initialLocals)
             = fst (valuesOf usedGasPrice quote)
          /\ l_ethFeeForBestQuote
               (fold_left (step usedGasPrice) (map snd quotes) initialLocals)
             = snd (valuesOf usedGasPrice quote))).
  { destruct Hb as [(Et & Ev & Ef) | (q & Hin & Et & Ev & Ef)].
    - left. rewrite Et, Ev, Ef. repeat split.
    - right. apply in_map_iff in Hin. destruct Hin as [[key q'] [E Hin]].
      simpl in E. subst q'. exists key, q. repeat split; assumption. }
  destruct (getProperty _ quotes) as [top|text|]; [| |discriminate];
    intro H; injection H as <-; exists usedGasPrice; (split; [reflexivity|]);
    exact Hfields.
Qed.

(** X13.  [findBestQuoteAndCalulateSavings] resolves to [null] for the empty map
    and for no other: with a quote in the map it resolves to a best quote
    with its savings, or rejects. *)
Theorem findBestQuoteAndCalulateSavings_null_iff_empty
  (quotes : SwapsQuotes) (customGasPrice : string) :
  findBestQuoteAndCalulateSavings calcTokenAmount getMedian contractExchangeRates getGasPrice
    quotes customGasPrice = Normal None
  <-> quotes = [].
Proof.
  unfold findBestQuoteAndCalulateSavings. split.
  - destruct quotes as [|entry rest]; [reflexivity|]. simpl.
    destruct (getBestQuoteAndEthValues _ _ _ _ _); discriminate.
  - intros ->. reflexivity.
Qed.

(** X24.  The gas price of the network is asked for only when no custom
    gas price is given.  With a custom gas price the result does not depend
    on what [getGasPrice] would give, not even on its failure; without one,
    an error of [getGasPrice] is the rejection of the search, for every map
    that is not empty. *)
Theorem getGasPrice_is_used_only_without_a_custom_gas_price
  (quotes : SwapsQuotes) (customGasPrice : string) :
  (truthy customGasPrice = true ->
   forall other : completion string,
     findBestQuoteAndCalulateSavings calcTokenAmount getMedian contractExchangeRates other
       quotes customGasPrice
     = findBestQuoteAndCalulateSavings calcTokenAmount getMedian contractExchangeRates
         getGasPrice quotes customGasPrice)
  /\ (truthy customGasPrice = false ->
      forall e, getGasPrice = Throw e ->
        getBestQuoteAndEthValues calcTokenAmount contractExchangeRates getGasPrice
          quotes customGasPrice = Throw e
        /\ (quotes <> [] ->
            findBestQuoteAndCalulateSavings calcTokenAmount getMedian contractExchangeRates
              getGasPrice quotes customGasPrice = Throw e)).
Proof.
  unfold findBestQuoteAndCalulateSavings, getBestQuoteAndEthValues. split.
  - intros T other. rewrite T. reflexivity.
  - intros T e E. rewrite T, E. split; [reflexivity|].
    intro Hne. destruct quotes as [|entry rest]; [contradiction | reflexivity].
Qed.

End BestQuoteResult.

#[local] Existing Instance ExactDecimal.exactDecimal.

(** The comparison of [ExactDecimal] is a strict order: [NaN] is greater
    than nothing and nothing is greater than [NaN]. *)
Lemma exactDecimal_gt_irreflexive (x : option Q) : bn_gt x (Big x) = false.
Proof.
  destruct x as [a|]; simpl; [|reflexivity].
  apply negb_false_iff, Qle_bool_iff, Qle_refl.
Qed.

Lemma exactDecimal_gt_transitive (x y z : option Q) :
  bn_gt x (Big y) = true -> bn_gt y (Big z) = true -> bn_gt x (Big z) = true.
Proof.
  destruct x as [a|], y as [b|], z as [c|]; simpl; try discriminate.
  intros Hab Hbc.
  apply negb_true_iff in Hab, Hbc. apply negb_true_iff.
  destruct (Qle_bool a c) eqn:Hac; [|reflexivity].
  apply Qle_bool_iff in Hac.
  assert (Hba : b < a).
  { apply Qnot_le_lt. intro H. apply Qle_bool_iff in H. congruence. }
  assert (Hcb : c < b).
  { apply Qnot_le_lt. intro H. apply Qle_bool_iff in H. congruence. }
  exfalso. apply (Qlt_not_le c a); [eapply Qlt_trans; eassumption | assumption].
Qed.

(** The hypotheses of
    [getBestQuoteAndEthValues_throws_without_a_positive_quote] hold of the
    map with the one unprofitable quote. *)
Lemma getBestQuoteAndEthValues_throws_witness :
  getBestQuoteAndEthValues ExactDecimal.calcTokenAmount [] (Normal oneGwei)
    [("airswapLight", daiToEthQuote)] oneGwei
  = Throw cannotReadDestinationToken.
Proof.
  apply (getBestQuoteAndEthValues_throws_without_a_positive_quote
           (lib := ExactDecimal.exactDecimal)
           ExactDecimal.calcTokenAmount [] (Normal oneGwei)).
  - reflexivity.
  - intros key quote [E | []]. injection E as <- <-. reflexivity.
  - reflexivity.
Defined.

(** The hypotheses of [getBestQuoteAndEthValues_selects_a_maximal_quote]
    hold of two offers of USDT for 1 ETH, with no exchange rate known for
    USDT: their values are 250 and 260, and the second is selected. *)
Lemma getBestQuoteAndEthValues_selects_witness :
  exists result key best,
    getBestQuoteAndEthValues ExactDecimal.calcTokenAmount [] (Normal oneGwei)
      [("uniswap", ethToUsdtQuote); ("paraswap", ethToUsdtBetterQuote)] oneGwei
    = Normal result
    /\ In (key, best) [("uniswap", ethToUsdtQuote); ("paraswap", ethToUsdtBetterQuote)]
    /\ topAggId (bestQuote result) = key
    /\ ethTradeValueOfBestQuote (bestQuote result)
       = ethValueOfTrade ExactDecimal.calcTokenAmount [] oneGwei best
    /\ forall key' quote,
         In (key', quote) [("uniswap", ethToUsdtQuote); ("paraswap", ethToUsdtBetterQuote)] ->
         bn_gt (ethValueOfTrade ExactDecimal.calcTokenAmount [] oneGwei quote)
               (Big (ethTradeValueOfBestQuote (bestQuote result))) = false.
Proof.
  apply (getBestQuoteAndEthValues_selects_a_maximal_quote
           (lib := ExactDecimal.exactDecimal)
           ExactDecimal.calcTokenAmount [] (Normal oneGwei)
           exactDecimal_gt_irreflexive exactDecimal_gt_transitive).
  - reflexivity.
  - intros key quote [E | [E | []]]; injection E as <- <-; reflexivity.
  - exists "uniswap", ethToUsdtQuote. split; [left; reflexivity | reflexivity].
Defined.

(** The hypothesis of [getBestQuoteAndEthValues_collects_every_quote]
    holds of the two offers of USDT with no custom gas price: the gas price
    of the network is used, and the values 250 and 260 are listed in the
    order of the map. *)
Lemma getBestQuoteAndEthValues_collects_witness :
  getBestQuoteAndEthValues ExactDecimal.calcTokenAmount [] (Normal oneGwei)
    [("uniswap", ethToUsdtQuote); ("paraswap", ethToUsdtBetterQuote)] ""
  = Normal bestOfTwoOffers
  /\ exists usedGasPrice,
       (if truthy "" then Normal "" else Normal oneGwei) = Normal usedGasPrice
       /\ allEthTradeValues (values bestOfTwoOffers)
          = map (fun entry =>
                   fst (quoteValues ExactDecimal.calcTokenAmount [] usedGasPrice (snd entry)))
              [("uniswap", ethToUsdtQuote); ("paraswap", ethToUsdtBetterQuote)]
       /\ allEthFees (values bestOfTwoOffers)
          = map (fun entry =>
                   snd (quoteValues ExactDecimal.calcTokenAmount [] usedGasPrice (snd entry)))
              [("uniswap", ethToUsdtQuote); ("paraswap", ethToUsdtBetterQuote)].
Proof.
  split; [reflexivity|].
  apply (getBestQuoteAndEthValues_collects_every_quote
           (lib := ExactDecimal.exactDecimal)
           ExactDecimal.calcTokenAmount [] (Normal oneGwei)
           [("uniswap", ethToUsdtQuote); ("paraswap", ethToUsdtBetterQuote)] "").
  reflexivity.
Defined.

(** The hypothesis of [getBestQuoteAndEthValues_best_is_one_quote] holds of
    the two offers of USDT. *)
Lemma getBestQuoteAndEthValues_best_is_one_quote_witness :
  getBestQuoteAndEthValues ExactDecimal.calcTokenAmount [] (Normal oneGwei)
    [("uniswap", ethToUsdtQuote); ("paraswap", ethToUsdtBetterQuote)] oneGwei
  = Normal bestOfTwoOffers
  /\ exists usedGasPrice,
       (if truthy oneGwei then Normal oneGwei else Normal oneGwei) = Normal usedGasPrice
       /\ ((topAggId (bestQuote bestOfTwoOffers) = ""
            /\ ethTradeValueOfBestQuote (bestQuote bestOfTwoOffers) = bnZero
            /\ ethFeeForBestQuote (bestQuote bestOfTwoOffers) = bnZero)
           \/ (exists key quote,
                 In (key, quote)
                   [("uniswap", ethToUsdtQuote); ("paraswap", ethToUsdtBetterQuote)]
                 /\ topAggId (bestQuote bestOfTwoOffers) = aggregator quote
                 /\ ethTradeValueOfBestQuote (bestQuote bestOfTwoOffers)
                    = fst (quoteValues ExactDecimal.calcTokenAmount [] usedGasPrice quote)
                 /\ ethFeeForBestQuote (bestQuote bestOfTwoOffers)
                    = snd (quoteValues ExactDecimal.calcTokenAmount [] usedGasPrice quote))).
Proof.
  split; [reflexivity|].
  apply (getBestQuoteAndEthValues_best_is_one_quote
           (lib := ExactDecimal.exactDecimal)
           ExactDecimal.calcTokenAmount [] (Normal oneGwei)
           [("uniswap", ethToUsdtQuote); ("paraswap", ethToUsdtBetterQuote)] oneGwei).
  reflexivity.
Defined.

(** Hexadecimal strings are read in one case of letters or in the other; a
    string that mixes them is not a number. *)
Example hexadecimal_digits_in_a_single_case :
  ExactDecimal.new (Prim (JStr "0x1fbd0")) (Some 16%N) = Some 130000%Q
  /\ ExactDecimal.new (Prim (JStr "0x1FBD0")) (Some 16%N) = Some 130000%Q
  /\ ExactDecimal.new (Prim (JStr "0x1fBd0")) (Some 16%N) = None
  /\ ExactDecimal.new (Prim (JStr "0x1fBd0")) None = None.
Proof. repeat split. Qed.

(** A best quote whose aggregator id is the name of a property that every
    object inherits: [quotes[topAggId]] is that property, not [undefined],
    so nothing throws; the result names the aggregator, and [isBest] is
    false since an inherited function has no [destinationToken]. *)
Example aggregator_named_like_an_inherited_property :
  let quote :=
    mkQuote "toString" None (Some 120000)
      (Some (JStr "250000000")) USDT (mkTokenInfo 6)
      None (JStr "1000000000000000000") ETH_SWAPS_TOKEN_ADDRESS
      (mkTrade "0xde0b6b3a7640000") in
  option_map (fun r => (topAggId (bestQuote r), isBest (bestQuote r)))
    (match getBestQuoteAndEthValues ExactDecimal.calcTokenAmount [] (Normal oneGwei)
             [("x", quote)] oneGwei with
     | Normal r => Some r
     | Throw _ => None
     end)
  = Some ("toString", false).
Proof. reflexivity. Qed.

(** A destination token named like an inherited property:
    [contractExchangeRates[destinationToken]] is then a function, which is
    truthy and which the library reads as [NaN], so the value of the quote
    is [NaN] and the quote is never the best. *)
Example destination_token_named_like_an_inherited_property :
  let quote :=
    mkQuote "uniswap" None (Some 120000)
      (Some (JStr "250000000")) "valueOf" (mkTokenInfo 6)
      None (JStr "1000000000000000000") ETH_SWAPS_TOKEN_ADDRESS
      (mkTrade "0xde0b6b3a7640000") in
  ethValueOfTrade ExactDecimal.calcTokenAmount [] oneGwei quote = None
  /\ getBestQuoteAndEthValues ExactDecimal.calcTokenAmount [] (Normal oneGwei)
       [("uniswap", quote)] oneGwei
     = Throw cannotReadDestinationToken.
Proof. split; reflexivity. Qed.

Example best_of_two_offers :
  option_map (fun r => topAggId (bestQuote r))
    (match getBestQuoteAndEthValues ExactDecimal.calcTokenAmount [] (Normal oneGwei)
             [("uniswap", ethToUsdtQuote); ("paraswap", ethToUsdtBetterQuote)] oneGwei with
     | Normal r => Some r
     | Throw _ => None
     end)
  = Some "paraswap".
Proof. reflexivity. Qed.

(** C1 fails on the code.  The map holds one quote, a swap of 2000 DAI for
    1 ETH at a gas price of 1 gwei.  Its trade value is computed as the
    amount in ETH minus the cost in wei, which is negative; no quote beats
    the initial best value 0, [topAggId] stays the empty string, and both
    [getBestQuoteAndEthValues] and [findBestQuoteAndCalulateSavings] throw
    instead of returning the key of the only quote. *)
Theorem findBestQuote_throws_on_an_unprofitable_quote :
  forall (getMedian : list (option Q) -> option Q) (getGasPrice : completion string),
    bn_gt (ethValueOfTrade ExactDecimal.calcTokenAmount [] oneGwei daiToEthQuote) (Big bnZero)
      = false
    /\ getBestQuoteAndEthValues ExactDecimal.calcTokenAmount [] getGasPrice
         [("airswapLight", daiToEthQuote)] oneGwei
       = Throw cannotReadDestinationToken
    /\ findBestQuoteAndCalulateSavings ExactDecimal.calcTokenAmount getMedian [] getGasPrice
         [("airswapLight", daiToEthQuote)] oneGwei
       = Throw cannotReadDestinationToken.
Proof.
  intros getMedian getGasPrice.
  split; [|split]; reflexivity.
Qed.

End SwapsProofs.

Module CurrencyRateProofs.
Import Js CurrencyRate.

(** ** The reducer *)

Lemma updateCurrencyFailed_clears_pending (now : N) (s : CurrencyRateState) :
  exists s', reducer now s updateCurrencyFailed = Normal s'
             /\ pendingCurrentCurrency s' = None
             /\ pendingNativeCurrency s' = None.
Proof. eexists; repeat split. Qed.

(** ** Lookups in the lists of fetches in flight *)

Lemma find_app_fresh {A : Type} (f : A -> bool) (l : list A) (x y : A) :
  find f (l ++ [x]) = Some y ->
  find f l = Some y \/ (f x = true /\ y = x).
Proof.
  induction l as [|a l IH]; simpl.
  - destruct (f x) eqn:Fx; [|discriminate]. intro H; injection H as <-. right; auto.
  - destruct (f a); [now left | exact IH].
Qed.

Lemma find_filter_key {A : Type} (key : A -> nat) (k id : nat) (l : list A) (x : A) :
  find (fun a => (key a =? id)%nat) (filter (fun a => negb (key a =? k)%nat) l) = Some x ->
  find (fun a => (key a =? id)%nat) l = Some x.
Proof.
  induction l as [|a l IH]; simpl; [discriminate|].
  destruct (key a =? k)%nat eqn:Ka; simpl.
  - intro H. destruct (key a =? id)%nat eqn:Kid; [|exact (IH H)].
    exfalso. apply find_some in H. destruct H as [Hin Hx].
    apply filter_In in Hin. destruct Hin as [_ Hk].
    apply Nat.eqb_eq in Ka, Kid, Hx. apply negb_true_iff, Nat.eqb_neq in Hk. congruence.
  - destruct (key a =? id)%nat; [trivial | exact IH].
Qed.

(** ** What a task can change *)

Lemma effects_refl w : effects w w.
Proof. unfold effects; repeat split; auto; lia. Qed.

Lemma effects_trans w1 w2 w3 : effects w1 w2 -> effects w2 w3 -> effects w1 w3.
Proof.
  intros (Hc1 & Hn1 & Hp1 & Hu1 & Hpf1 & Huf1) (Hc2 & Hn2 & Hp2 & Hu2 & Hpf2 & Huf2).
  unfold effects; repeat split; try lia.
  - destruct Hp2 as [E2 | (p & E2 & B2)].
    + rewrite E2. destruct Hp1 as [E1 | (p & E1 & B1)]; [now left|].
      right; exists p; split; [assumption | lia].
    + right; exists p; split; [assumption | lia].
  - destruct Hu2 as [E2 | (t & E2 & B2)].
    + rewrite E2. destruct Hu1 as [E1 | (t & E1 & B1)]; [now left|].
      right; exists t; split; [assumption | lia].
    + right; exists t; split; [assumption | lia].
  - intros id p Hp. destruct (Hpf2 id p Hp) as [Hin | (Hid & Ht)].
    + destruct (Hpf1 id p Hin) as [Hin' | (Hid & Ht)]; [now left|]. right; split; lia.
    + right; split; lia.
  - intros id u Hu. destruct (Huf2 id u Hu) as [Hin | (Hid & Hs & t & Et & Bt)].
    + destruct (Huf1 id u Hin) as [Hin' | (Hid & Hs & t & Et & Bt)]; [now left|].
      right; split; [lia|]. split; [assumption|].
      destruct Hu2 as [E2 | (t2 & E2 & B2)].
      * exists t. rewrite E2. split; [assumption | lia].
      * exists t2. split; [assumption | lia].
    + right; split; [lia|]. split; [lia|]. exists t. split; [assumption | lia].
Qed.

(** A lookup in a list of fetches that was kept, filtered by id, or extended
    by one fetch with the next id. *)
Ltac lookup_cases :=
  let id := fresh "id" in
  let x := fresh "x" in
  let H := fresh "H" in
  let K := fresh "K" in
  intros id x H; unfold findPollFetch, findUpdateFetch in *; simpl in H |- *;
  try apply find_filter_key in H;
  first
    [ left; exact H
    | apply find_app_fresh in H; destruct H as [H | [K ->]];
      [ left; exact H
      | right; simpl in K |- *; apply Nat.eqb_eq in K; subst id;
        repeat split; try lia;
        try (eexists; split; [reflexivity | lia]) ] ].

(** Closes [effects w w'] when [w'] is an explicit record built from [w]. *)
Ltac effects_by_computation :=
  unfold effects; simpl;
  split; [|split; [|split; [|split; [|split]]]];
  [ lia
  | lia
  | first [ left; reflexivity | right; eexists; split; [reflexivity | lia] ]
  | first [ left; reflexivity | right; eexists; split; [reflexivity | lia] ]
  | lookup_cases
  | lookup_cases ].

Lemma effects_poll w : effects w (fst (poll w)).
Proof. effects_by_computation. Qed.

Lemma effects_notAwaited (m : M unit) :
  (forall w, effects w (fst (m w))) -> forall w, effects w (fst (notAwaited m w)).
Proof.
  intros Hm w. unfold notAwaited. specialize (Hm w).
  destruct (m w) as [w' [a|e]]; exact Hm.
Qed.

Lemma effects_start w : effects w (fst (start w)).
Proof. effects_by_computation. Qed.

(** The reducer writes [pollingStartTime] and [updateStartTime] only in the
    cases that carry them. *)
Lemma reducer_start_times now s a s' :
  reducer now s a = Normal s' ->
  pollingStartTime s' =
    match a with
    | pollingStarted p => Some p
    | pollingStopped => None
    | _ => pollingStartTime s
    end
  /\ updateStartTime s' =
    match a with
    | updateCurrencyStarted _ _ t => Some t
    | _ => updateStartTime s
    end.
Proof.
  destruct a as [p| |r|c n t| |r]; simpl.
  1-3, 5: intro H; injection H as <-; split; reflexivity.
  - destruct (negb (truthy c) && negb (truthy n)); [discriminate|].
    intro H; injection H as <-.
    destruct (truthy c), (truthy n); split; reflexivity.
  - destruct (pendingCurrentCurrency s) as [c|] eqn:E; simpl; rewrite ?E;
      [destruct (truthy c) eqn:T; simpl; rewrite ?E, ?T|];
      intro H; injection H as <-; split; reflexivity.
Qed.

Lemma dispatchAction_unfold a w :
  dispatchAction a w =
    match reducer (clock w) (store w) a with
    | Normal s => (with_store s (add_log (Dispatched (Act a)) w), Normal tt)
    | Throw e => (add_log (Dispatched (Act a)) w, Throw e)
    end.
Proof. reflexivity. Qed.

(** A dispatched action keeps within [effects] when it does not stop polling
    and the start time it carries is the current reading of the clock. *)
Lemma effects_dispatchAction a w :
  a <> pollingStopped ->
  (forall p, a = pollingStarted p -> p = clock w) ->
  (forall c n t, a = updateCurrencyStarted c n t -> t = clock w) ->
  effects w (fst (dispatchAction a w)).
Proof.
  intros Hstop Hp Hu. unfold dispatchAction. simpl.
  destruct (reducer (clock w) (store w) a) as [s'|e] eqn:R; [|effects_by_computation].
  apply reducer_start_times in R. destruct R as [Rp Ru].
  unfold effects; simpl. rewrite Rp, Ru.
  destruct a as [p| |r|c n t| |r]; try congruence;
    repeat split; try lia; auto.
  - right. rewrite (Hp _ eq_refl). eexists; split; [reflexivity|lia].
  - right. rewrite (Hu _ _ _ eq_refl). eexists; split; [reflexivity|lia].
Qed.

(** From here on the thunks are reasoned about through their lemmas. *)
Local Arguments reducer : simpl never.
Local Arguments dispatchAction : simpl never.
Local Arguments dispatch : simpl never.
Local Arguments start : simpl never.
Local Arguments poll : simpl never.
Local Arguments notAwaited : simpl never.

Lemma effects_dispatch_start strict w : effects w (fst (dispatch strict StartThunk w)).
Proof.
  unfold dispatch.
  exact (effects_notAwaited start effects_start (add_log (Dispatched StartThunk) w)).
Qed.

Lemma effects_dispatchUndefined strict w : effects w (fst (dispatchUndefined strict w)).
Proof. unfold dispatchUndefined. destruct strict; effects_by_computation. Qed.

Lemma effects_poll_resolved fetchStart rate w :
  effects w (fst (poll_resolved fetchStart rate w)).
Proof.
  unfold poll_resolved, bind, getState.
  destruct (pollMustBail _ _); [apply effects_refl|].
  apply effects_dispatchAction; [discriminate | discriminate | discriminate].
Qed.

Lemma effects_intervalCallback id pollingStart w :
  effects w (fst (intervalCallback id pollingStart w)).
Proof.
  unfold intervalCallback, bind, getState.
  destruct (strictNeq _ _); [effects_by_computation|].
  apply effects_notAwaited, effects_poll.
Qed.

(** [updateCurrency] up to its [await]: beside [effects], a run that reaches
    its fetch has written its own start time, the current clock, to the
    store. *)
Lemma effects_updateCurrency strict c n w :
  effects w (fst (updateCurrency strict c n w)).
Proof.
  unfold updateCurrency.
  destruct (negb (truthy c) && negb (truthy n)) eqn:G; [apply effects_refl|].
  unfold bind, stop, ret, dispatch, dateNow, getState.
  destruct (dispatchUndefined strict w) as [w1 [[]|e]] eqn:D1;
    pose proof (effects_dispatchUndefined strict w) as E1; rewrite D1 in E1; simpl in E1;
    [|exact E1].
  assert (Hclock : clock w1 = clock w).
  { unfold dispatchUndefined in D1. destruct strict; injection D1 as <-; reflexivity. }
  rewrite dispatchAction_unfold.
  destruct (reducer (clock w1) (store w1) (updateCurrencyStarted c n (clock w1)))
    as [s'|e] eqn:R; [|exact E1].
  apply reducer_start_times in R. destruct R as [Rp Ru]. simpl.
  destruct E1 as (Hc & Hn & Hp & Hu & Hpf & Huf).
  unfold effects; simpl. rewrite Rp, Ru.
  repeat split; try lia; auto.
  - right. eexists; split; [reflexivity|lia].
  - intros id p Hin. apply Hpf in Hin. destruct Hin as [Hin | (Hid & Ht)]; [now left|].
    right; split; lia.
  - intros id u Hin. unfold findUpdateFetch in Hin; simpl in Hin.
    apply find_app_fresh in Hin. destruct Hin as [Hin | [K ->]].
    + apply Huf in Hin. destruct Hin as [Hin | (Hid & Hs & t & Et & Bt)]; [now left|].
      right. split; [lia|]. split; [lia|]. eexists; split; [reflexivity|lia].
    + right. simpl in K |- *. apply Nat.eqb_eq in K. subst id.
      split; [lia|]. split; [lia|]. eexists; split; [reflexivity|lia].
Qed.

Lemma effects_updateCurrency_tryRest strict updateStart rate w :
  effects w (fst (updateCurrency_tryRest strict updateStart rate w)).
Proof.
  unfold updateCurrency_tryRest, bind, getState.
  destruct (strictNeq _ _); [apply effects_refl|].
  unfold dispatch.
  pose proof (effects_dispatchAction (updateCurrencyFinished rate) w) as E.
  destruct (dispatchAction (updateCurrencyFinished rate) w) as [w1 [[]|e]];
    apply E; discriminate.
Qed.

Lemma effects_updateCurrency_settle strict (body : M bool) :
  (forall w, effects w (fst (body w))) ->
  forall w, effects w (fst (updateCurrency_settle strict body w)).
Proof.
  intros Hbody w. unfold updateCurrency_settle.
  specialize (Hbody w). destruct (body w) as [w1 tried]. simpl in Hbody.
  destruct tried as [[|]|error]; cbn.
  - (* replaced *) exact Hbody.
  - (* stored: finally dispatches start *)
    pose proof (effects_dispatch_start strict w1) as E.
    destruct (dispatch strict StartThunk w1) as [w3 final].
    eapply effects_trans; [exact Hbody | exact E].
  - (* threw: catch, then finally *)
    pose proof (effects_dispatchAction updateCurrencyFailed w1) as E2.
    change (dispatch strict (Act updateCurrencyFailed) w1)
      with (dispatchAction updateCurrencyFailed w1).
    destruct (dispatchAction updateCurrencyFailed w1) as [w2 r2]. simpl in E2.
    pose proof (effects_dispatch_start strict w2) as E3.
    destruct (dispatch strict StartThunk w2) as [w3 final].
    eapply effects_trans; [exact Hbody|].
    eapply effects_trans; [apply E2; discriminate | exact E3].
Qed.

Lemma effects_settle w (r : World * completion unit) :
  effects w (fst r) -> effects w (settle r).
Proof. destruct r as [w' [[]|e]]; intro H; exact H. Qed.

(** [Some x = Some w' -> G]: replaces [w'] by [x] in [G], without reducing [x]. *)
Ltac some_inv :=
  match goal with
  | |- Some ?x = Some ?y -> _ =>
      let H := fresh in
      let E := fresh in
      intro H; assert (E : x = y) by congruence; clear H; subst y
  end.

(** Every task of the event loop keeps within [effects]. *)
Lemma step_effects strict ev w w' : step strict ev w = Some w' -> effects w w'.
Proof.
  destruct ev as [ms| | | |c n|id|id rate|id error|id rate|id error]; unfold step.
  - some_inv. effects_by_computation.
  - some_inv. apply effects_settle, effects_dispatch_start.
  - some_inv. apply effects_refl.
  - some_inv. apply effects_settle.
    apply (effects_dispatchUndefined strict).
  - some_inv. apply effects_settle, effects_updateCurrency.
  - destruct (findInterval id w) as [iv|]; [|discriminate].
    destruct (ivDue iv <=? clock w)%N; [|discriminate].
    some_inv. apply effects_settle.
    exact (effects_intervalCallback id (ivPollingStartTime iv) (rearm id w)).
  - destruct (findPollFetch id w) as [p|]; [|discriminate].
    some_inv. apply effects_settle.
    eapply effects_trans; [|apply effects_poll_resolved]. effects_by_computation.
  - destruct (findPollFetch id w) as [p|]; [|discriminate].
    some_inv. effects_by_computation.
  - destruct (findUpdateFetch id w) as [u|]; [|discriminate].
    some_inv. apply effects_settle.
    eapply effects_trans;
      [|apply effects_updateCurrency_settle; intro; apply effects_updateCurrency_tryRest].
    effects_by_computation.
  - destruct (findUpdateFetch id w) as [u|]; [|discriminate].
    some_inv. apply effects_settle.
    eapply effects_trans;
      [|apply effects_updateCurrency_settle; intro; apply effects_refl].
    effects_by_computation.
Qed.

Lemma run_effects strict evs : forall w w', run strict evs w = Some w' -> effects w w'.
Proof.
  induction evs as [|ev evs IH]; simpl; intros w w' H.
  - injection H as <-. apply effects_refl.
  - destruct (step strict ev w) as [w1|] eqn:S; [|discriminate].
    eapply effects_trans; [eapply step_effects; eassumption | apply IH; assumption].
Qed.

(** ** Invariants of the reachable worlds *)

Lemma wellFormed_initialWorld now : wellFormed (initialWorld now).
Proof.
  unfold wellFormed, initialWorld; simpl.
  split; [|split; [|split]]; intros; discriminate.
Qed.

Lemma wellFormed_effects w w' : wellFormed w -> effects w w' -> wellFormed w'.
Proof.
  intros (Ip & Iu & Ipf & Iuf) (Hc & Hn & Hp & Hu & Hpf & Huf).
  unfold wellFormed. split; [|split; [|split]].
  - intros p E. destruct Hp as [Same | (p' & E' & B)].
    + rewrite Same in E. apply Ip in E. lia.
    + rewrite E' in E. injection E as <-. lia.
  - intros t E. destruct Hu as [Same | (t' & E' & B)].
    + rewrite Same in E. apply Iu in E. lia.
    + rewrite E' in E. injection E as <-. lia.
  - intros id p F. destruct (Hpf id p F) as [Old | (Hid & Ht)]; [apply Ipf in Old|]; lia.
  - intros id u F. destruct (Huf id u F) as [Old | (Hid & Hs & t & Et & Bt)].
    + apply Iuf in Old. destruct Old as (Hid & t & Et & Bt). split; [lia|].
      destruct Hu as [Same | (t' & E' & B)].
      * exists t. rewrite Same. split; assumption.
      * exists t'. split; [assumption|]. apply Iu in Et. lia.
    + split; [lia|]. exists t. split; [assumption | lia].
Qed.

Lemma reachable_wellFormed strict w : reachable strict w -> wellFormed w.
Proof.
  intros (now & evs & R).
  eapply wellFormed_effects; [apply wellFormed_initialWorld | eapply run_effects; eassumption].
Qed.

Lemma stalePoll_effects id fetchStart w w' :
  stalePoll id fetchStart w -> effects w w' -> stalePoll id fetchStart w'.
Proof.
  intros (Hid & Hsame & p & Ep & Bp) (Hc & Hn & Hp & Hu & Hpf & Huf).
  unfold stalePoll. split; [|split].
  - lia.
  - intros q F. destruct (Hpf id q F) as [Old | (Hnew & _)]; [auto | lia].
  - destruct Hp as [Same | (p' & E' & B)].
    + exists p. rewrite Same. split; [assumption | lia].
    + exists p'. split; [assumption | lia].
Qed.

Lemma supersededUpdate_effects id updateStart w w' :
  supersededUpdate id updateStart w -> effects w w' -> supersededUpdate id updateStart w'.
Proof.
  intros (Hid & Hsame & t & Et & Bt) (Hc & Hn & Hp & Hu & Hpf & Huf).
  unfold supersededUpdate. split; [|split].
  - lia.
  - intros v F. destruct (Huf id v F) as [Old | (Hnew & _)]; [auto | lia].
  - destruct Hu as [Same | (t' & E' & B)].
    + exists t. rewrite Same. split; [assumption | lia].
    + exists t'. split; [assumption | lia].
Qed.

(** ** Settling a fetch whose run is stale *)

(** When the guard of [poll] fires, the task ends without a dispatch. *)
Lemma poll_resolved_bails fetchStart rate w :
  pollMustBail (pollingStartTime (store w)) fetchStart = true ->
  poll_resolved fetchStart rate w = (w, Normal tt).
Proof.
  intro B. unfold poll_resolved, bind, getState, getPollingStartTime. rewrite B. reflexivity.
Qed.

(** Otherwise it dispatches [pollFinished] with the fetched rate. *)
Lemma poll_resolved_stores fetchStart rate w :
  pollMustBail (pollingStartTime (store w)) fetchStart = false ->
  poll_resolved fetchStart rate w =
    (with_store (set_conversionRate rate (set_conversionDate (clock w) (store w)))
       (add_log (Dispatched (Act (pollFinished rate))) w),
     Normal tt).
Proof.
  intro B. unfold poll_resolved, bind, getState, getPollingStartTime. rewrite B. reflexivity.
Qed.

Lemma step_stalePoll_discarded strict id fetchStart rate w w' :
  stalePoll id fetchStart w ->
  step strict (PollFetchResolves id rate) w = Some w' ->
  store w' = store w /\ log w' = log w.
Proof.
  intros (Hid & Hsame & p & Ep & Bp). unfold step.
  destruct (findPollFetch id w) as [q|] eqn:F; [|discriminate].
  rewrite (Hsame q eq_refl).
  rewrite poll_resolved_bails.
  - some_inv. split; reflexivity.
  - cbn. rewrite Ep. cbn. apply N.ltb_lt. lia.
Qed.

(** When the store's [updateStartTime] differs from the run's, the run marks
    itself replaced and dispatches nothing, neither in [try] nor in
    [finally]. *)
Lemma updateCurrency_resolved_replaced strict updateStart rate w :
  strictNeq updateStart (updateStartTime (store w)) = true ->
  updateCurrency_resolved strict updateStart rate w = (w, Normal tt).
Proof.
  intro B.
  unfold updateCurrency_resolved, updateCurrency_settle, updateCurrency_tryRest,
    bind, getState, getUpdateStartTime.
  rewrite B. reflexivity.
Qed.

Lemma step_supersededUpdate_discarded strict id updateStart rate w w' :
  supersededUpdate id updateStart w ->
  step strict (UpdateFetchResolves id rate) w = Some w' ->
  store w' = store w /\ log w' = log w.
Proof.
  intros (Hid & Hsame & t & Et & Bt). unfold step.
  destruct (findUpdateFetch id w) as [u|] eqn:F; [|discriminate].
  rewrite (Hsame u eq_refl).
  rewrite updateCurrency_resolved_replaced.
  - some_inv. split; reflexivity.
  - cbn. rewrite Et. cbn. apply negb_true_iff, N.eqb_neq. lia.
Qed.

(** ** Stale poll results *)

(** C4, as amended.  Once polling has been restarted strictly later than a
    poll fetch was started (the store's [pollingStartTime] exceeds the
    fetch's [fetchStartTime]), the result of that fetch is discarded
    whenever it arrives: the task that receives it dispatches nothing and
    leaves the store as it was. *)
Theorem stale_poll_result_discarded_after_restart
  strict w id p restart evs w2 rate w3 :
  reachable strict w ->
  findPollFetch id w = Some p ->
  pollingStartTime (store w) = Some restart ->
  (fetchStartTime p < restart)%N ->
  run strict evs w = Some w2 ->
  step strict (PollFetchResolves id rate) w2 = Some w3 ->
  store w3 = store w2 /\ log w3 = log w2.
Proof.
  intros Hreach F Ep Lt Hrun Hstep.
  pose proof (reachable_wellFormed _ _ Hreach) as (Ip & _ & Ipf & _).
  assert (Stale : stalePoll id (fetchStartTime p) w).
  { split; [|split].
    - apply (Ipf id p F).
    - intros q Fq. rewrite F in Fq. injection Fq as <-. reflexivity.
    - exists restart. split; [assumption|]. split; [assumption | apply Ip; assumption]. }
  eapply step_stalePoll_discarded; [|eassumption].
  eapply stalePoll_effects; [exact Stale | eapply run_effects; eassumption].
Qed.

(** C2, as amended.  Take two poll fetches in flight, [A] started before
    polling was last restarted and [B] started after it.  When [B]'s result
    arrives it is stored, and whatever happens next, [A]'s result is
    discarded when it arrives: it never overwrites the rate stored by [B]. *)
Theorem poll_of_earlier_session_never_overwrites
  strict w idA pA idB pB restart rateB w1 evs w2 rateA w3 :
  reachable strict w ->
  findPollFetch idA w = Some pA ->
  findPollFetch idB w = Some pB ->
  pollingStartTime (store w) = Some restart ->
  (fetchStartTime pA < restart)%N ->
  (restart <= fetchStartTime pB)%N ->
  step strict (PollFetchResolves idB rateB) w = Some w1 ->
  run strict evs w1 = Some w2 ->
  step strict (PollFetchResolves idA rateA) w2 = Some w3 ->
  (conversionRate (store w1) = rateB
   /\ log w1 = (log w ++ [Dispatched (Act (pollFinished rateB))])%list)
  /\ (store w3 = store w2 /\ log w3 = log w2).
Proof.
  intros Hreach FA FB Ep LtA LeB HB Hrun HA.
  split.
  - revert HB. unfold step. rewrite FB.
    rewrite poll_resolved_stores.
    + some_inv. split; reflexivity.
    + cbn. rewrite Ep. cbn. apply N.ltb_ge. assumption.
  - pose proof (reachable_wellFormed _ _ Hreach) as (Ip & _ & Ipf & _).
    assert (Stale : stalePoll idA (fetchStartTime pA) w).
    { split; [|split].
      - apply (Ipf idA pA FA).
      - intros q Fq. rewrite FA in Fq. injection Fq as <-. reflexivity.
      - exists restart. split; [assumption|]. split; [assumption | apply Ip; assumption]. }
    eapply step_stalePoll_discarded; [|eassumption].
    eapply stalePoll_effects; [|eapply run_effects; eassumption].
    eapply stalePoll_effects; [exact Stale | eapply step_effects; eassumption].
Qed.

(** ** Superseded currency updates *)

(** What the test [updateStartTime !== updatedUpdateStartTime] does achieve.
    A run of [updateCurrency] is awaiting its fetch.  If a second
    [updateCurrency] starts and changes the store's [updateStartTime], then
    whatever happens next, when the first run's fetch resolves the run
    dispatches nothing: no [updateCurrencyFinished], and no [start] either.
    The store, with its rate and currencies, is left as it was.  The
    hypothesis on [updateStartTime] is needed: two runs started within one
    millisecond are not told apart, as the next theorem shows. *)
Theorem superseded_update_result_discarded
  strict w id1 u1 currentCurrency2 nativeCurrency2 w1 evs w2 rate w3 :
  reachable strict w ->
  findUpdateFetch id1 w = Some u1 ->
  step strict (AppUpdateCurrency currentCurrency2 nativeCurrency2) w = Some w1 ->
  getUpdateStartTime (store w1) <> getUpdateStartTime (store w) ->
  run strict evs w1 = Some w2 ->
  step strict (UpdateFetchResolves id1 rate) w2 = Some w3 ->
  store w3 = store w2 /\ log w3 = log w2.
Proof.
  intros Hreach F Hsecond Hchanged Hrun Hresolve.
  pose proof (reachable_wellFormed _ _ Hreach) as (_ & Iu & _ & Iuf).
  destruct (Iuf id1 u1 F) as (Hid & t0 & Et0 & Bt0).
  pose proof (step_effects _ _ _ _ Hsecond) as E1.
  assert (Sup : supersededUpdate id1 (ufUpdateStartTime u1) w1).
  { destruct E1 as (Hc & Hn & _ & Hu & _ & Huf).
    split; [|split].
    - lia.
    - intros v Fv. destruct (Huf id1 v Fv) as [Old | (Hnew & _)]; [|lia].
      rewrite F in Old. injection Old as <-. reflexivity.
    - unfold getUpdateStartTime in Hchanged.
      destruct Hu as [Same | (t & Et & Bt)]; [contradiction|].
      exists t. split; [assumption|].
      assert (t <> t0) by (intros ->; congruence).
      apply Iu in Et0. lia. }
  eapply step_supersededUpdate_discarded; [|eassumption].
  eapply supersededUpdate_effects; [exact Sup | eapply run_effects; eassumption].
Qed.


(** ** A failed exchange-rate fetch during updateCurrency *)

(** The rejection of the awaited fetch runs the [catch] block and then the
    [finally] block, and the error leaves the thunk.  [updateReplaced] is
    still [false] on this path, whatever the store holds. *)
Lemma updateCurrency_rejected_unfold strict error w :
  updateCurrency_rejected strict error w =
    (fst (dispatch strict StartThunk (fst (dispatch strict (Act updateCurrencyFailed) w))),
     Throw error).
Proof. reflexivity. Qed.

(** C5.  A run of [updateCurrency] that has not been superseded (the store's
    [updateStartTime] is still its own) is awaiting its fetch, and the fetch
    rejects.  Then [updateCurrencyFailed] is dispatched, so both pending
    currencies are [null]; [start] is dispatched, so polling is started anew
    at the current time, with a fetch in flight and an interval armed; and
    the thunk's promise is rejected with the error of the fetch. *)
Theorem updateCurrency_fetch_error_clears_pending_and_restarts_polling
  strict w id u error w' :
  findUpdateFetch id w = Some u ->
  getUpdateStartTime (store w) = Some (ufUpdateStartTime u) ->
  step strict (UpdateFetchRejects id error) w = Some w' ->
  log w' = (log w ++ [Dispatched (Act updateCurrencyFailed);
                      Dispatched StartThunk;
                      Dispatched (Act (pollingStarted (clock w)));
                      Rejected error])%list
  /\ pendingCurrentCurrency (store w') = None
  /\ pendingNativeCurrency (store w') = None
  /\ pollingStartTime (store w') = Some (clock w)
  /\ In (mkPollFetch (nextId w) (clock w)
           (currentCurrency (store w)) (nativeCurrency (store w)))
        (pollFetches w')
  /\ In (mkInterval (S (nextId w)) (clock w) (clock w + POLLING_INTERVAL)) (intervals w').
Proof.
  intros F _. unfold step. rewrite F. rewrite updateCurrency_rejected_unfold.
  some_inv.
  split; [|split; [|split; [|split; [|split]]]].
  - cbv [settle dispatch dispatchAction notAwaited start poll setInterval bind dateNow
         getState ret reducer fst removeUpdateFetch].
    simpl. repeat rewrite <- app_assoc. reflexivity.
  - reflexivity.
  - reflexivity.
  - reflexivity.
  - apply in_or_app. right. left. reflexivity.
  - apply in_or_app. right. left. reflexivity.
Qed.

(** The hypotheses of the theorem above are met, with a store whose
    [dispatch] lets [undefined] pass, by a switch to "eur" whose fetch
    fails. *)
Lemma updateCurrency_fetch_error_witness :
  exists w w',
    run false [AppStart; Tick 7; AppUpdateCurrency "eur" ""] (initialWorld 1000) = Some w
    /\ step false (UpdateFetchRejects 2 (Error "network")) w = Some w'
    /\ pendingCurrentCurrency (store w) = Some "eur"
    /\ log w' = (log w ++ [Dispatched (Act updateCurrencyFailed);
                           Dispatched StartThunk;
                           Dispatched (Act (pollingStarted (clock w)));
                           Rejected (Error "network")])%list
    /\ pendingCurrentCurrency (store w') = None
    /\ pendingNativeCurrency (store w') = None
    /\ pollingStartTime (store w') = Some (clock w)
    /\ In (mkPollFetch (nextId w) (clock w)
             (currentCurrency (store w)) (nativeCurrency (store w)))
          (pollFetches w')
    /\ In (mkInterval (S (nextId w)) (clock w) (clock w + POLLING_INTERVAL)) (intervals w').
Proof.
  do 2 eexists.
  split; [vm_compute; reflexivity|].
  split; [vm_compute; reflexivity|].
  split; [vm_compute; reflexivity|].
  eapply (updateCurrency_fetch_error_clears_pending_and_restarts_polling false _ 2).
  - vm_compute; reflexivity.
  - vm_compute; reflexivity.
  - vm_compute; reflexivity.
Defined.

(** ** stop *)

(** The exported [stop()] changes nothing: not the store, not the fetches in
    flight, not the intervals. *)
Lemma stop_changes_nothing strict w : step strict AppStop w = Some w.
Proof. reflexivity. Qed.

(** Dispatching what [stop()] returns never reaches the reducer either: the
    store is as it was. *)
Lemma dispatch_stop_keeps_store strict w w' :
  step strict AppDispatchStop w = Some w' -> store w' = store w.
Proof. unfold step. some_inv. destruct strict; reflexivity. Qed.

(** The mechanism that [stop()] fails to trigger is in place: once the
    [pollingStopped] action has gone through the reducer,
    [pollingStartTime] is [undefined], a poll fetch that resolves is
    discarded, and an interval that fires clears itself. *)
Lemma pollingStopped_when_dispatched_cancels_polling w w' fetchStart rate id pollingStart :
  dispatchAction pollingStopped w = (w', Normal tt) ->
  pollingStartTime (store w') = None
  /\ poll_resolved fetchStart rate w' = (w', Normal tt)
  /\ intervalCallback id pollingStart w' = clearInterval id w'.
Proof.
  rewrite dispatchAction_unfold. cbn [reducer].
  intro H. injection H as <-.
  split; [reflexivity|]. split; reflexivity.
Qed.

(** C6 fails on the code.  Polling is started at time 1000 and [stop()] is
    called.  The store still holds [pollingStartTime = 1000]; the fetch in
    flight resolves and its rate is stored; and three minutes later the
    interval fires and starts another fetch. *)
Theorem stop_does_not_cancel_polling :
  exists w1 w2 w3 p,
    run true [AppStart; AppStop] (initialWorld 1000) = Some w1
    /\ pollingStartTime (store w1) = Some 1000%N
    /\ step true (PollFetchResolves 0 (2 # 1)) w1 = Some w2
    /\ log w2 = (log w1 ++ [Dispatched (Act (pollFinished (2 # 1)))])%list
    /\ conversionRate (store w2) = 2 # 1
    /\ run true [Tick 180000; IntervalFires 1] w2 = Some w3
    /\ findInterval 1 w3 <> None
    /\ findPollFetch 2 w3 = Some p
    /\ fetchStartTime p = 181000%N.
Proof.
  do 4 eexists.
  repeat (split; [vm_compute; first [reflexivity | discriminate]|]).
  vm_compute; reflexivity.
Qed.

(** ** The reducer on completion and on failure *)

(** X3.  [updateCurrencyFinished] never writes [nativeCurrency] nor
    [pendingNativeCurrency]: its second test reads [pendingCurrentCurrency],
    which the first block has just set to [null]. *)
Lemma updateCurrencyFinished_keeps_native (now : N) (s : CurrencyRateState) (rate : Q) :
  exists s', reducer now s (updateCurrencyFinished rate) = Normal s'
             /\ pendingNativeCurrency s' = pendingNativeCurrency s
             /\ nativeCurrency s' = nativeCurrency s.
Proof.
  destruct s as [date r0 cur nat [pending|] pendingNative polling updating];
    unfold reducer; simpl;
    [destruct (truthy pending) eqn:T; simpl; rewrite ?T|];
    eexists; repeat split.
Qed.

(** C3 fails on the code for [updateCurrencyFinished]: applied to a state
    whose pending native currency is "BTC", it leaves it pending, and the
    native currency is still "ETH". *)
Theorem updateCurrencyFinished_leaves_pendingNativeCurrency :
  reducer 2000
    {| conversionDate := 0; conversionRate := 0;
       currentCurrency := "usd"; nativeCurrency := "ETH";
       pendingCurrentCurrency := Some "eur"; pendingNativeCurrency := Some "BTC";
       pollingStartTime := None; updateStartTime := Some 1000%N |}
    (updateCurrencyFinished (3 # 1))
  = Normal
      {| conversionDate := 2000; conversionRate := 3 # 1;
         currentCurrency := "eur"; nativeCurrency := "ETH";
         pendingCurrentCurrency := None; pendingNativeCurrency := Some "BTC";
         pollingStartTime := None; updateStartTime := Some 1000%N |}.
Proof. reflexivity. Qed.

(** ** Scenarios *)

(** A currency update that has started does not make a poll fetch stale
    either: [updateCurrency] dispatches what [stop()] returns, which is
    [undefined], so [pollingStartTime] stays and the rate of the fetch in
    flight is stored while the update is pending. *)
Lemma poll_result_stored_while_update_pending :
  exists w1 w2,
    run false [AppStart; Tick 5; AppUpdateCurrency "eur" ""] (initialWorld 1000) = Some w1
    /\ updateStartTime (store w1) = Some 1005%N
    /\ pendingCurrentCurrency (store w1) = Some "eur"
    /\ pollingStartTime (store w1) = Some 1000%N
    /\ step false (PollFetchResolves 0 (2 # 1)) w1 = Some w2
    /\ log w2 = (log w1 ++ [Dispatched (Act (pollFinished (2 # 1)))])%list
    /\ conversionRate (store w2) = 2 # 1.
Proof.
  do 2 eexists.
  repeat (split; [vm_compute; reflexivity|]).
  vm_compute; reflexivity.
Qed.

(** C2 fails as stated.  Polling starts at time 1000 and is never restarted.
    The first fetch (id 0) is still in flight when the interval fires at
    181000 and starts a second fetch (id 2).  The second fetch resolves with
    rate 2 and is stored; then the first resolves with rate 1 and
    [pollFinished] is dispatched for it too: the older result overwrites the
    newer one. *)
Lemma later_poll_overwritten_within_one_session :
  exists w1 w2 w3 earlier later,
    run true [AppStart; Tick 180000; IntervalFires 1] (initialWorld 1000) = Some w1
    /\ findPollFetch 0 w1 = Some earlier
    /\ findPollFetch 2 w1 = Some later
    /\ fetchStartTime earlier = 1000%N
    /\ fetchStartTime later = 181000%N
    /\ pollingStartTime (store w1) = Some 1000%N
    /\ step true (PollFetchResolves 2 (2 # 1)) w1 = Some w2
    /\ conversionRate (store w2) = 2 # 1
    /\ pollingStartTime (store w2) = Some 1000%N
    /\ step true (PollFetchResolves 0 (1 # 1)) w2 = Some w3
    /\ log w3 = (log w2 ++ [Dispatched (Act (pollFinished (1 # 1)))])%list
    /\ conversionRate (store w3) = 1 # 1.
Proof.
  do 5 eexists.
  repeat (split; [vm_compute; reflexivity|]).
  vm_compute; reflexivity.
Qed.

(** C4 fails as stated: a newer poll of the same polling session does not
    make the older fetch stale.  After the interval has started a second
    fetch at 181000, the first fetch, started at 1000, resolves and its rate
    is stored. *)
Lemma newer_poll_does_not_discard_older_result :
  exists w1 w2 older newer,
    run true [AppStart; Tick 180000; IntervalFires 1] (initialWorld 1000) = Some w1
    /\ findPollFetch 0 w1 = Some older
    /\ findPollFetch 2 w1 = Some newer
    /\ (fetchStartTime older < fetchStartTime newer)%N
    /\ step true (PollFetchResolves 0 (5 # 2)) w1 = Some w2
    /\ log w2 = (log w1 ++ [Dispatched (Act (pollFinished (5 # 2)))])%list
    /\ conversionRate (store w2) = 5 # 2.
Proof.
  do 4 eexists.
  repeat (split; [vm_compute; reflexivity|]).
  vm_compute; reflexivity.
Qed.

(** The hypotheses of [stale_poll_result_discarded_after_restart] are met
    when [start] is dispatched a second time, 50 ms after the first: the
    fetch of the first session is then stale. *)
Lemma stale_poll_result_discarded_after_restart_witness :
  exists w w2 w3,
    run true [AppStart; Tick 50; AppStart] (initialWorld 1000) = Some w
    /\ run true [Tick 20] w = Some w2
    /\ step true (PollFetchResolves 0 (5 # 2)) w2 = Some w3
    /\ store w3 = store w2 /\ log w3 = log w2.
Proof.
  do 3 eexists.
  split; [vm_compute; reflexivity|].
  split; [vm_compute; reflexivity|].
  split; [vm_compute; reflexivity|].
  eapply (stale_poll_result_discarded_after_restart true _ 0 _ 1050%N [Tick 20] _ (5 # 2)).
  - exists 1000%N, [AppStart; Tick 50; AppStart]. vm_compute; reflexivity.
  - vm_compute; reflexivity.
  - vm_compute; reflexivity.
  - vm_compute; reflexivity.
  - vm_compute; reflexivity.
  - vm_compute; reflexivity.
Defined.

(** The hypotheses of [poll_of_earlier_session_never_overwrites] are met by
    the fetch of a first session (id 0, started at 1000) and the fetch of a
    second session (id 2, started at 1050). *)
Lemma poll_of_earlier_session_never_overwrites_witness :
  exists w w1 w2 w3,
    run true [AppStart; Tick 50; AppStart] (initialWorld 1000) = Some w
    /\ step true (PollFetchResolves 2 (2 # 1)) w = Some w1
    /\ run true [Tick 20] w1 = Some w2
    /\ step true (PollFetchResolves 0 (1 # 1)) w2 = Some w3
    /\ (conversionRate (store w1) = 2 # 1
        /\ log w1 = (log w ++ [Dispatched (Act (pollFinished (2 # 1)))])%list)
    /\ (store w3 = store w2 /\ log w3 = log w2).
Proof.
  do 4 eexists.
  split; [vm_compute; reflexivity|].
  split; [vm_compute; reflexivity|].
  split; [vm_compute; reflexivity|].
  split; [vm_compute; reflexivity|].
  eapply (poll_of_earlier_session_never_overwrites true _ 0 _ 2 _ 1050%N (2 # 1) _ [Tick 20]
            _ (1 # 1)).
  - exists 1000%N, [AppStart; Tick 50; AppStart]. vm_compute; reflexivity.
  - vm_compute; reflexivity.
  - vm_compute; reflexivity.
  - vm_compute; reflexivity.
  - vm_compute; reflexivity.
  - vm_compute. discriminate.
  - vm_compute; reflexivity.
  - vm_compute; reflexivity.
  - vm_compute; reflexivity.
Defined.

(** The hypotheses of [superseded_update_result_discarded] are met, with a
    store whose [dispatch] lets [undefined] pass, by a switch to "eur"
    followed 5 ms later by a switch to "gbp". *)
Lemma superseded_update_result_discarded_witness :
  exists w w1 w2 w3,
    run false [AppUpdateCurrency "eur" ""] (initialWorld 1000) = Some w
    /\ run false [Tick 5; AppUpdateCurrency "gbp" ""] w = Some w1
    /\ run false [Tick 10] w1 = Some w2
    /\ step false (UpdateFetchResolves 0 (3 # 1)) w2 = Some w3
    /\ store w3 = store w2 /\ log w3 = log w2.
Proof.
  do 4 eexists.
  split; [vm_compute; reflexivity|].
  split; [vm_compute; reflexivity|].
  split; [vm_compute; reflexivity|].
  split; [vm_compute; reflexivity|].
  eapply (superseded_update_result_discarded false _ 0 _ "gbp" "" _ [Tick 10] _ (3 # 1)).
  - exists 1000%N, [AppUpdateCurrency "eur" ""; Tick 5]. vm_compute; reflexivity.
  - vm_compute; reflexivity.
  - vm_compute; reflexivity.
  - vm_compute. discriminate.
  - vm_compute; reflexivity.
  - vm_compute; reflexivity.
Defined.

(** ** The store after one task *)

(** The reducer throws in one case only. *)
Lemma reducer_throws now s a e :
  reducer now s a = Throw e ->
  exists c n t, a = updateCurrencyStarted c n t
                /\ truthy c = false /\ truthy n = false /\ e = missingCurrency.
Proof.
  destruct a as [p| |r|c n t| |r]; unfold reducer; try discriminate.
  destruct (truthy c) eqn:Tc, (truthy n) eqn:Tn; simpl; try discriminate.
  intro H. injection H as <-. exists c, n, t. repeat split; assumption.
Qed.

(** What one task of the event loop leaves in the store. *)
Lemma step_store strict ev w w' :
  step strict ev w = Some w' ->
  store w' =
    match ev with
    | AppStart => set_pollingStartTime (Some (clock w)) (store w)
    | AppUpdateCurrency c n =>
        if strict || (negb (truthy c) && negb (truthy n))
        then store w
        else
          match reducer (clock w) (store w) (updateCurrencyStarted c n (clock w)) with
          | Normal s => s
          | Throw _ => store w
          end
    | PollFetchResolves id rate =>
        match findPollFetch id w with
        | Some p =>
            if pollMustBail (pollingStartTime (store w)) (fetchStartTime p)
            then store w
            else set_conversionRate rate (set_conversionDate (clock w) (store w))
        | None => store w
        end
    | UpdateFetchResolves id rate =>
        match findUpdateFetch id w with
        | Some u =>
            if strictNeq (ufUpdateStartTime u) (updateStartTime (store w))
            then store w
            else
              match reducer (clock w) (store w) (updateCurrencyFinished rate) with
              | Normal s => set_pollingStartTime (Some (clock w)) s
              | Throw _ => store w
              end
        | None => store w
        end
    | UpdateFetchRejects id error =>
        set_pollingStartTime (Some (clock w))
          (set_pendingNativeCurrency None (set_pendingCurrentCurrency None (store w)))
    | _ => store w
    end.
Proof.
  destruct ev as [ms| | | |c n|id|id rate|id error|id rate|id error]; unfold step.
  - some_inv. reflexivity.
  - some_inv. reflexivity.
  - some_inv. reflexivity.
  - some_inv. destruct strict; reflexivity.
  - some_inv. unfold updateCurrency.
    destruct (negb (truthy c) && negb (truthy n)) eqn:G.
    + rewrite orb_true_r. reflexivity.
    + rewrite orb_false_r. destruct strict; [reflexivity|].
      cbv [bind stop ret dispatch dispatchUndefined dateNow getState].
      cbn [add_log clock store].
      rewrite dispatchAction_unfold. cbn [add_log clock store].
      destruct (reducer _ _ _) as [s|e]; reflexivity.
  - destruct (findInterval id w) as [iv|]; [|discriminate].
    destruct (ivDue iv <=? clock w)%N; [|discriminate].
    some_inv. unfold intervalCallback, bind, getState.
    destruct (strictNeq _ _); reflexivity.
  - destruct (findPollFetch id w) as [p|]; [|discriminate].
    some_inv. unfold poll_resolved, bind, getState, getPollingStartTime.
    cbn [removePollFetch with_pollFetches store].
    destruct (pollMustBail _ _); reflexivity.
  - destruct (findPollFetch id w) as [p|]; [|discriminate].
    some_inv. reflexivity.
  - destruct (findUpdateFetch id w) as [u|]; [|discriminate].
    some_inv.
    unfold updateCurrency_resolved, updateCurrency_settle, updateCurrency_tryRest,
      bind, getState, getUpdateStartTime.
    cbn [removeUpdateFetch with_updateFetches store].
    destruct (strictNeq _ _); [reflexivity|].
    unfold dispatch at 1. rewrite dispatchAction_unfold.
    cbn [removeUpdateFetch with_updateFetches store clock].
    destruct (reducer _ _ _) as [s|e] eqn:R.
    + reflexivity.
    + exfalso. apply reducer_throws in R. destruct R as (c & n & t & E & _). discriminate.
  - destruct (findUpdateFetch id w) as [u|]; [|discriminate].
    some_inv. reflexivity.
Qed.

(** The reducer writes [nativeCurrency] in no case: the only assignment to
    it, in [updateCurrencyFinished], is behind a test that is false. *)
Lemma reducer_nativeCurrency now s a s' :
  reducer now s a = Normal s' -> nativeCurrency s' = nativeCurrency s.
Proof.
  destruct a as [p| |r|c n t| |r]; unfold reducer.
  1-3, 5: intro H; injection H as <-; reflexivity.
  - destruct (negb (truthy c) && negb (truthy n)); [discriminate|].
    intro H; injection H as <-.
    destruct (truthy c), (truthy n); reflexivity.
  - destruct s as [date r0 cur nat [pending|] pendingNative polling updating]; simpl;
      [destruct (truthy pending) eqn:T; simpl; rewrite ?T|];
      intro H; injection H as <-; reflexivity.
Qed.

Lemma step_nativeCurrency strict ev w w' :
  step strict ev w = Some w' -> nativeCurrency (store w') = nativeCurrency (store w).
Proof.
  intro H. rewrite (step_store _ _ _ _ H).
  destruct ev as [ms| | | |c n|id|id rate|id error|id rate|id error]; try reflexivity.
  - destruct (strict || _); [reflexivity|].
    destruct (reducer _ _ _) as [s|e] eqn:R; [|reflexivity].
    exact (reducer_nativeCurrency _ _ _ _ R).
  - destruct (findPollFetch id w) as [p|]; [|reflexivity].
    destruct (pollMustBail _ _); reflexivity.
  - destruct (findUpdateFetch id w) as [u|]; [|reflexivity].
    destruct (strictNeq _ _); [reflexivity|].
    destruct (reducer _ _ _) as [s|e] eqn:R; [|reflexivity].
    exact (reducer_nativeCurrency _ _ _ _ R).
Qed.

(** X14.  The reducer throws for one action only: [updateCurrencyStarted] with
    neither currency given, and then with the missing-currency error.  Every
    other action, in every state, is reduced to a state. *)
Theorem reducer_throws_only_for_a_missing_currency
  (now : N) (s : CurrencyRateState) (a : action) (e : jsError) :
  reducer now s a = Throw e
  <-> exists c n t, a = updateCurrencyStarted c n t
                    /\ truthy c = false /\ truthy n = false /\ e = missingCurrency.
Proof.
  split; [apply reducer_throws|].
  intros (c & n & t & -> & Tc & Tn & ->). unfold reducer. rewrite Tc, Tn. reflexivity.
Qed.

(** X15.  No run of the event loop changes [nativeCurrency]: whatever currencies
    [updateCurrency] is called with, and whether its fetch succeeds or fails,
    the native currency of the store stays what it was. *)
Theorem nativeCurrency_is_never_changed strict evs : forall w w',
  run strict evs w = Some w' -> nativeCurrency (store w') = nativeCurrency (store w).
Proof.
  induction evs as [|ev evs IH]; simpl; intros w w' H.
  - injection H as <-. reflexivity.
  - destruct (step strict ev w) as [w1|] eqn:S; [|discriminate].
    rewrite (IH _ _ H). exact (step_nativeCurrency _ _ _ _ S).
Qed.

(** X16.  [updateCurrency] called with neither currency rejects with the
    missing-currency error and does nothing else: nothing is dispatched, no
    fetch is started, and polling goes on. *)
Theorem updateCurrency_without_a_currency_is_rejected strict c n w :
  truthy c = false -> truthy n = false ->
  step strict (AppUpdateCurrency c n) w = Some (add_log (Rejected missingCurrency) w).
Proof.
  intros Tc Tn. unfold step, updateCurrency. rewrite Tc, Tn. reflexivity.
Qed.

(** X17.  On a store whose [dispatch] rejects what is not an action, as that of
    Redux does, every call of [updateCurrency] rejects before it has written
    to the store or started a fetch: with the missing-currency error when no
    currency is given, and otherwise with the error of [dispatch(stop())],
    which hands [undefined] to [dispatch]. *)
Theorem updateCurrency_rejects_on_a_strict_store c n w :
  exists w',
    step true (AppUpdateCurrency c n) w = Some w'
    /\ store w' = store w
    /\ pollFetches w' = pollFetches w
    /\ updateFetches w' = updateFetches w
    /\ intervals w' = intervals w
    /\ log w' =
       (if negb (truthy c) && negb (truthy n)
        then log w ++ [Rejected missingCurrency]
        else log w ++ [Dispatched Undefined; Rejected notAnAction])%list.
Proof.
  eexists. split; [reflexivity|].
  unfold updateCurrency.
  destruct (negb (truthy c) && negb (truthy n)); simpl;
    rewrite <- ?app_assoc; repeat split.
Qed.

(** What holds of a strict store for ever. *)
Lemma strict_step_untouched ev w w' :
  step true ev w = Some w' ->
  updateFetches w = [] ->
  updateFetches w' = []
  /\ currentCurrency (store w') = currentCurrency (store w)
  /\ pendingCurrentCurrency (store w') = pendingCurrentCurrency (store w)
  /\ pendingNativeCurrency (store w') = pendingNativeCurrency (store w)
  /\ updateStartTime (store w') = updateStartTime (store w).
Proof.
  intros H U. pose proof (step_store _ _ _ _ H) as S. revert H.
  destruct ev as [ms| | | |c n|id|id rate|id error|id rate|id error]; unfold step.
  - some_inv. rewrite S. auto.
  - some_inv. rewrite S. auto.
  - some_inv. rewrite S. auto.
  - some_inv. rewrite S. auto.
  - some_inv. rewrite S. cbn [orb]. split; [|auto].
    unfold updateCurrency. destruct (negb (truthy c) && negb (truthy n)); exact U.
  - destruct (findInterval id w) as [iv|]; [|discriminate].
    destruct (ivDue iv <=? clock w)%N; [|discriminate].
    some_inv. rewrite S. split; [|auto].
    unfold intervalCallback, bind, getState.
    destruct (strictNeq _ _); exact U.
  - destruct (findPollFetch id w) as [p|]; [|discriminate].
    some_inv. rewrite S. split.
    + unfold poll_resolved, bind, getState. destruct (pollMustBail _ _); exact U.
    + destruct (pollMustBail _ _); auto.
  - destruct (findPollFetch id w) as [p|]; [|discriminate].
    some_inv. rewrite S. auto.
  - unfold findUpdateFetch. rewrite U. discriminate.
  - unfold findUpdateFetch. rewrite U. discriminate.
Qed.

(** X18.  On a store whose [dispatch] rejects what is not an action,
    [updateCurrency] never takes effect: in every world the program reaches,
    no update is awaiting its fetch, the current currency is the initial
    one, and nothing is pending. *)
Theorem strict_store_never_switches_currency w :
  reachable true w ->
  updateFetches w = []
  /\ currentCurrency (store w) = "usd"
  /\ pendingCurrentCurrency (store w) = None
  /\ pendingNativeCurrency (store w) = None
  /\ updateStartTime (store w) = None.
Proof.
  intros (now & evs & H).
  assert (G : forall evs w0 w1, run true evs w0 = Some w1 ->
            updateFetches w0 = [] ->
            updateFetches w1 = []
            /\ currentCurrency (store w1) = currentCurrency (store w0)
            /\ pendingCurrentCurrency (store w1) = pendingCurrentCurrency (store w0)
            /\ pendingNativeCurrency (store w1) = pendingNativeCurrency (store w0)
            /\ updateStartTime (store w1) = updateStartTime (store w0)).
  { clear. induction evs as [|ev evs IH]; simpl; intros w0 w1 H U.
    - injection H as <-. auto.
    - destruct (step true ev w0) as [w|] eqn:S; [|discriminate].
      destruct (strict_step_untouched _ _ _ S U) as (U' & E1 & E2 & E3 & E4).
      destruct (IH _ _ H U') as (U'' & F1 & F2 & F3 & F4).
      repeat split; congruence. }
  exact (G evs (initialWorld now) w H eq_refl).
Qed.

(** ** updateCurrency *)

Lemma find_filter_same {A : Type} (key : A -> nat) (id : nat) (l : list A) :
  find (fun a => (key a =? id)%nat) (filter (fun a => negb (key a =? id)%nat) l) = None.
Proof.
  induction l as [|a l IH]; simpl; [reflexivity|].
  destruct (key a =? id)%nat eqn:K; simpl; [exact IH|]. rewrite K. exact IH.
Qed.

Lemma find_filter_other {A : Type} (key : A -> nat) (k id : nat) (l : list A) :
  id <> k ->
  find (fun a => (key a =? id)%nat) (filter (fun a => negb (key a =? k)%nat) l)
  = find (fun a => (key a =? id)%nat) l.
Proof.
  intro Hneq. induction l as [|a l IH]; simpl; [reflexivity|].
  destruct (key a =? k)%nat eqn:Kk; simpl.
  - destruct (key a =? id)%nat eqn:Kid; [|exact IH].
    apply Nat.eqb_eq in Kk, Kid. congruence.
  - destruct (key a =? id)%nat; [reflexivity | exact IH].
Qed.

(** X19.  The fetch of an [updateCurrency] that has not been superseded resolves.
    The rate is stored with the time of its arrival, the current currency
    becomes the pending one (when there is one), nothing is pending as
    current currency any more, and polling is started anew for the new
    current currency: [pollingStartTime] is the present time, a poll fetch
    for the new pair is in flight and an interval is armed.  The native
    currency is not switched. *)
Theorem updateCurrency_success_switches_and_restarts_polling strict w id u rate :
  findUpdateFetch id w = Some u ->
  updateStartTime (store w) = Some (ufUpdateStartTime u) ->
  exists w',
    step strict (UpdateFetchResolves id rate) w = Some w'
    /\ log w' = (log w ++ [Dispatched (Act (updateCurrencyFinished rate));
                           Dispatched StartThunk;
                           Dispatched (Act (pollingStarted (clock w)))])%list
    /\ conversionRate (store w') = rate
    /\ conversionDate (store w') = clock w
    /\ currentCurrency (store w') = getPendingOrActiveCurrentCurrency (store w)
    /\ getPendingOrActiveCurrentCurrency (store w') = currentCurrency (store w')
    /\ nativeCurrency (store w') = nativeCurrency (store w)
    /\ pendingNativeCurrency (store w') = pendingNativeCurrency (store w)
    /\ pollingStartTime (store w') = Some (clock w)
    /\ findUpdateFetch id w' = None
    /\ In (mkPollFetch (nextId w) (clock w)
             (getPendingOrActiveCurrentCurrency (store w)) (nativeCurrency (store w)))
          (pollFetches w')
    /\ In (mkInterval (S (nextId w)) (clock w) (clock w + POLLING_INTERVAL)) (intervals w').
Proof.
  intros F Hu. unfold step. rewrite F. eexists. split; [reflexivity|].
  unfold updateCurrency_resolved, updateCurrency_settle, updateCurrency_tryRest,
    bind, getState, getUpdateStartTime.
  cbn [removeUpdateFetch with_updateFetches store]. rewrite Hu.
  cbn [strictNeq]. rewrite N.eqb_refl. cbn [negb].
  clear F Hu.
  destruct w as [s clk pfs ufs ivs nid lg].
  destruct s as [date r0 cur nat pending pendingNative polling updating].
  unfold getPendingOrActiveCurrentCurrency, getCurrentCurrency, findUpdateFetch.
  cbn [store clock log nextId pendingCurrentCurrency currentCurrency nativeCurrency
       pendingNativeCurrency updateFetches pollFetches intervals].
  assert (Hnone : find (fun u0 => (ufId u0 =? id)%nat)
                    (filter (fun u0 => negb (ufId u0 =? id)%nat) ufs) = None)
    by apply find_filter_same.
  destruct pending as [c|]; [destruct (truthy c) eqn:T|];
    unfold removeUpdateFetch, settle, dispatch, dispatchAction, notAwaited, start, poll,
      setInterval, bind, dateNow, getState, ret, reducer;
    simpl; rewrite ?T; simpl; unfold orElse;
    unfold set_conversionRate, set_conversionDate, set_currentCurrency,
      set_pendingCurrentCurrency, set_pollingStartTime;
    cbv beta iota delta
      [conversionDate conversionRate currentCurrency nativeCurrency pendingCurrentCurrency
       pendingNativeCurrency pollingStartTime updateStartTime];
    rewrite ?T.
  all: split; [rewrite <- !app_assoc; reflexivity|].
  all: repeat (split; [first [reflexivity | exact Hnone]|]).
  all: split; apply in_or_app; right; left; reflexivity.
Qed.

(** X20.  Two runs of [updateCurrency] are awaiting their fetches, and the store's
    [updateStartTime] is that of the second.  The fetch of the first
    rejects: its [catch] block does not look at [updateStartTime], and
    [updateCurrencyFailed] clears the pending currency of the second run
    too.  When the fetch of the second then resolves, its rate is stored,
    but there is no pending currency left to switch to: the current currency
    is the one from before both updates. *)
Theorem failed_update_cancels_the_switch_of_a_later_one
  strict w id1 id2 u1 u2 error rate :
  findUpdateFetch id1 w = Some u1 ->
  findUpdateFetch id2 w = Some u2 ->
  id1 <> id2 ->
  updateStartTime (store w) = Some (ufUpdateStartTime u2) ->
  exists w1 w2,
    step strict (UpdateFetchRejects id1 error) w = Some w1
    /\ step strict (UpdateFetchResolves id2 rate) w1 = Some w2
    /\ pendingCurrentCurrency (store w1) = None
    /\ conversionRate (store w2) = rate
    /\ currentCurrency (store w2) = currentCurrency (store w)
    /\ pendingCurrentCurrency (store w2) = None.
Proof.
  intros F1 F2 Hneq Hu.
  destruct (step strict (UpdateFetchRejects id1 error) w) as [w1|] eqn:S1;
    [|unfold step in S1; rewrite F1 in S1; discriminate].
  pose proof (step_store _ _ _ _ S1) as E1. cbv beta iota in E1.
  assert (F2' : findUpdateFetch id2 w1 = Some u2).
  { revert S1. unfold step. rewrite F1. some_inv. rewrite <- F2.
    transitivity (find (fun u => (ufId u =? id2)%nat)
                    (filter (fun u => negb (ufId u =? id1)%nat) (updateFetches w)));
      [reflexivity|].
    apply find_filter_other. congruence. }
  destruct (step strict (UpdateFetchResolves id2 rate) w1) as [w2|] eqn:S2;
    [|unfold step in S2; rewrite F2' in S2; discriminate].
  pose proof (step_store _ _ _ _ S2) as E2. cbv beta iota in E2.
  rewrite F2' in E2.
  exists w1, w2. split; [reflexivity|]. split; [exact S2|].
  rewrite E2, E1.
  destruct (store w) as [date r0 cur nat pending pendingNative polling updating].
  cbv beta iota delta [updateStartTime set_pollingStartTime set_pendingNativeCurrency
    set_pendingCurrentCurrency conversionDate conversionRate currentCurrency
    nativeCurrency pendingCurrentCurrency pendingNativeCurrency pollingStartTime] in Hu |- *.
  rewrite Hu. cbn [strictNeq]. rewrite N.eqb_refl. cbn [negb].
  unfold reducer.
  cbv beta iota zeta delta [updateStartTime set_pollingStartTime set_pendingNativeCurrency
    set_pendingCurrentCurrency set_conversionDate set_conversionRate
    conversionDate conversionRate currentCurrency
    nativeCurrency pendingCurrentCurrency pendingNativeCurrency pollingStartTime].
  repeat split.
Qed.

(** ** Intervals *)

Lemma NoDup_map_same_key {A : Type} (key : A -> nat) (l : list A) (a b : A) :
  NoDup (map key l) -> In a l -> In b l -> key a = key b -> a = b.
Proof.
  induction l as [|x l IH]; simpl; intros N Ha Hb E; [contradiction|].
  inversion N as [|k ks Hnotin N']; subst.
  destruct Ha as [-> | Ha], Hb as [-> | Hb].
  - reflexivity.
  - exfalso. apply Hnotin. rewrite E. apply in_map. exact Hb.
  - exfalso. apply Hnotin. rewrite <- E. apply in_map. exact Ha.
  - apply IH; assumption.
Qed.

Lemma rearm_ids id w : map ivId (intervals (rearm id w)) = map ivId (intervals w).
Proof.
  unfold rearm. simpl. rewrite map_map. apply map_ext.
  intro iv. destruct (ivId iv =? id)%nat; reflexivity.
Qed.

Lemma rearm_In id w iv :
  In iv (intervals w) ->
  exists iv', In iv' (intervals (rearm id w))
              /\ ivId iv' = ivId iv /\ ivPollingStartTime iv' = ivPollingStartTime iv.
Proof.
  intro H. unfold rearm. simpl.
  eexists. split; [apply in_map; exact H|].
  destruct (ivId iv =? id)%nat; split; reflexivity.
Qed.

Lemma rearm_In_inv id w iv' :
  In iv' (intervals (rearm id w)) ->
  exists iv, In iv (intervals w)
             /\ ivId iv' = ivId iv /\ ivPollingStartTime iv' = ivPollingStartTime iv.
Proof.
  unfold rearm. simpl. intro H. apply in_map_iff in H. destruct H as (iv & E & Hin).
  exists iv. split; [exact Hin|]. subst iv'.
  destruct (ivId iv =? id)%nat; split; reflexivity.
Qed.

Lemma findInterval_rearm id w iv :
  findInterval id w = Some iv ->
  findInterval id (rearm id w)
  = Some (mkInterval id (ivPollingStartTime iv) (clock w + POLLING_INTERVAL)).
Proof.
  unfold findInterval, rearm. simpl.
  induction (intervals w) as [|x l IH]; simpl; [discriminate|].
  destruct (ivId x =? id)%nat eqn:K; simpl; rewrite K.
  - intro H. injection H as <-.
    apply Nat.eqb_eq in K. rewrite K. reflexivity.
  - exact IH.
Qed.

(** What one task of the event loop does to the intervals: it keeps them
    and [pollingStartTime]; or it is a [start], which writes
    [pollingStartTime] and arms an interval of the new session; or it is the
    callback of an interval, which clears its own interval when it belongs
    to another session and starts a poll otherwise. *)
Lemma step_intervals strict ev w w' :
  step strict ev w = Some w' ->
  (intervals w' = intervals w
   /\ pollingStartTime (store w') = pollingStartTime (store w))
  \/ (intervals w'
      = (intervals w
           ++ [mkInterval (S (nextId w)) (clock w) (clock w + POLLING_INTERVAL)])%list
      /\ pollingStartTime (store w') = Some (clock w)
      /\ nextId w' = S (S (nextId w)))
  \/ (exists id iv,
        ev = IntervalFires id
        /\ findInterval id w = Some iv
        /\ (ivDue iv <= clock w)%N
        /\ store w' = store w
        /\ if strictNeq (ivPollingStartTime iv) (pollingStartTime (store w))
           then intervals w'
                = filter (fun i => negb (ivId i =? id)%nat) (intervals (rearm id w))
                /\ pollFetches w' = pollFetches w
           else intervals w' = intervals (rearm id w)
                /\ pollFetches w'
                   = (pollFetches w
                        ++ [mkPollFetch (nextId w) (clock w)
                              (currentCurrency (store w)) (nativeCurrency (store w))])%list).
Proof.
  intro H. pose proof (step_store _ _ _ _ H) as S. revert H.
  destruct ev as [ms| | | |c n|id|id rate|id error|id rate|id error]; unfold step.
  - some_inv. left. split; reflexivity.
  - some_inv. right. left. repeat split.
  - some_inv. left. split; reflexivity.
  - some_inv. left. split; [destruct strict; reflexivity | rewrite S; reflexivity].
  - some_inv. left. split.
    + unfold updateCurrency.
      destruct (negb (truthy c) && negb (truthy n)); [reflexivity|].
      destruct strict; [reflexivity|].
      cbv [bind stop ret dispatch dispatchUndefined dateNow getState].
      rewrite dispatchAction_unfold.
      destruct (reducer _ _ _) as [s|e]; reflexivity.
    + rewrite S. destruct (strict || _); [reflexivity|].
      destruct (reducer _ _ _) as [s|e] eqn:R; [|reflexivity].
      apply reducer_start_times in R. apply R.
  - destruct (findInterval id w) as [iv|] eqn:F; [|discriminate].
    destruct (ivDue iv <=? clock w)%N eqn:Due; [|discriminate].
    some_inv. right. right. exists id, iv.
    split; [reflexivity|]. split; [exact F|].
    split; [apply N.leb_le; exact Due|]. split; [exact S|].
    unfold intervalCallback, bind, getState, getPollingStartTime.
    change (store (rearm id w)) with (store w).
    destruct (strictNeq _ _); split; reflexivity.
  - destruct (findPollFetch id w) as [p|]; [|discriminate].
    some_inv. left. split.
    + unfold poll_resolved, bind, getState. destruct (pollMustBail _ _); reflexivity.
    + rewrite S. destruct (pollMustBail _ _); reflexivity.
  - destruct (findPollFetch id w) as [p|]; [|discriminate].
    some_inv. left. split; reflexivity.
  - destruct (findUpdateFetch id w) as [u|]; [|discriminate].
    rewrite S. some_inv.
    unfold updateCurrency_resolved, updateCurrency_settle, updateCurrency_tryRest,
      bind, getState, getUpdateStartTime.
    cbn [removeUpdateFetch with_updateFetches store].
    destruct (strictNeq _ _); [left; split; reflexivity|].
    unfold dispatch at 1. rewrite dispatchAction_unfold.
    cbn [removeUpdateFetch with_updateFetches store clock].
    destruct (reducer _ _ _) as [s|e] eqn:R.
    + right. left. repeat split.
    + exfalso. apply reducer_throws in R. destruct R as (c & n & t & E & _). discriminate.
  - destruct (findUpdateFetch id w) as [u|]; [|discriminate].
    some_inv. right. left. repeat split.
Qed.

Lemma NoDup_snoc {A : Type} (l : list A) (x : A) :
  NoDup l -> ~ In x l -> NoDup (l ++ [x]).
Proof.
  induction l as [|a l IH]; simpl; intros N Hx.
  - constructor; [intros []|constructor].
  - inversion N as [|a' l' Ha N']; subst. constructor.
    + intro Hin. apply in_app_or in Hin. destruct Hin as [Hin | [-> | []]].
      * contradiction.
      * apply Hx. left. reflexivity.
    + apply IH; [assumption|]. intro Hin. apply Hx. right. exact Hin.
Qed.

Lemma NoDup_map_filter {A : Type} (key : A -> nat) (f : A -> bool) (l : list A) :
  NoDup (map key l) -> NoDup (map key (filter f l)).
Proof.
  induction l as [|a l IH]; simpl; intro N; [constructor|].
  inversion N as [|k ks Ha N']; subst.
  destruct (f a); simpl; [|apply IH; assumption].
  constructor; [|apply IH; assumption].
  intro Hin. apply Ha. apply in_map_iff in Hin. destruct Hin as (b & E & Hb).
  apply filter_In in Hb. rewrite <- E. apply in_map. apply Hb.
Qed.

Lemma strictNeq_true a b : strictNeq a b = true <-> b <> Some a.
Proof.
  unfold strictNeq. destruct b as [b'|]; [|split; [discriminate | reflexivity]].
  rewrite negb_true_iff, N.eqb_neq. split; intro H; congruence.
Qed.

Lemma strictNeq_false a b : strictNeq a b = false <-> b = Some a.
Proof.
  unfold strictNeq. destruct b as [b'|]; [|split; discriminate].
  rewrite negb_false_iff, N.eqb_eq. split; intro H; congruence.
Qed.

Lemma pollingArmed_initialWorld now : pollingArmed (initialWorld now).
Proof.
  split; [|split]; simpl.
  - intros iv [].
  - constructor.
  - discriminate.
Qed.

Lemma step_pollingArmed strict ev w w' :
  step strict ev w = Some w' -> pollingArmed w -> pollingArmed w'.
Proof.
  intros H (Ids & Nd & Armed).
  pose proof (step_effects _ _ _ _ H) as (_ & Hn & _).
  destruct (step_intervals _ _ _ _ H)
    as [(Ei & Ep) | [(Ei & Ep & En) | (id & iv & _ & F & _ & Es & Hfired)]].
  - (* kept *)
    unfold pollingArmed. rewrite Ei, Ep. split; [|split; assumption].
    intros iv Hin. apply Ids in Hin. lia.
  - (* started *)
    unfold pollingArmed. rewrite Ei, Ep, En. split; [|split].
    + intros iv Hin. apply in_app_or in Hin. destruct Hin as [Hin | [<- | []]].
      * apply Ids in Hin. lia.
      * simpl. lia.
    + rewrite map_app. apply NoDup_snoc; [assumption|]. simpl.
      intro Hin. apply in_map_iff in Hin. destruct Hin as (iv & E & Hin).
      apply Ids in Hin. lia.
    + intros p E. injection E as <-. eexists. split; [apply in_or_app; right; left; reflexivity|].
      reflexivity.
  - (* an interval fired *)
    unfold pollingArmed. rewrite Es.
    destruct (strictNeq _ _) eqn:Neq; destruct Hfired as [Ei _]; rewrite Ei.
    + split; [|split].
      * intros iv' Hin. apply filter_In in Hin. destruct Hin as [Hin _].
        apply rearm_In_inv in Hin. destruct Hin as (iv0 & Hin & -> & _).
        apply Ids in Hin. lia.
      * apply NoDup_map_filter. rewrite rearm_ids. assumption.
      * intros p Ep. destruct (Armed p Ep) as (iv0 & Hin0 & Hp0).
        destruct (rearm_In id w iv0 Hin0) as (iv0' & Hin0' & Hid & Hp).
        exists iv0'. split; [|congruence].
        apply filter_In. split; [assumption|].
        apply negb_true_iff, Nat.eqb_neq. intro Hsame.
        apply strictNeq_true in Neq. apply Neq. rewrite Ep. f_equal.
        unfold findInterval in F. apply find_some in F. destruct F as [Hin Hk].
        apply Nat.eqb_eq in Hk.
        assert (iv0 = iv) by (apply (NoDup_map_same_key ivId (intervals w)); congruence).
        congruence.
    + split; [|split].
      * intros iv' Hin. apply rearm_In_inv in Hin. destruct Hin as (iv0 & Hin & -> & _).
        apply Ids in Hin. lia.
      * rewrite rearm_ids. assumption.
      * intros p Ep. destruct (Armed p Ep) as (iv0 & Hin0 & Hp0).
        destruct (rearm_In id w iv0 Hin0) as (iv0' & Hin0' & Hid & Hp).
        exists iv0'. split; [assumption | congruence].
Qed.

Lemma run_pollingArmed strict evs : forall w w',
  run strict evs w = Some w' -> pollingArmed w -> pollingArmed w'.
Proof.
  induction evs as [|ev evs IH]; simpl; intros w w' H Inv.
  - injection H as <-. exact Inv.
  - destruct (step strict ev w) as [w1|] eqn:S; [|discriminate].
    eapply IH; [exact H|]. eapply step_pollingArmed; eassumption.
Qed.

(** X21.  Polling, once started, is never stopped.  In a world the program
    reaches with [pollingStartTime] defined, whatever happens next
    ([stop()], [dispatch(stop())], [updateCurrency], fetches that resolve or
    fail), [pollingStartTime] is defined afterwards and not earlier, and an
    interval of that polling session is armed. *)
Theorem polling_once_started_never_ends strict w evs w' p :
  reachable strict w ->
  pollingStartTime (store w) = Some p ->
  run strict evs w = Some w' ->
  exists p' iv,
    pollingStartTime (store w') = Some p'
    /\ (p <= p')%N
    /\ In iv (intervals w')
    /\ ivPollingStartTime iv = p'.
Proof.
  intros Hreach Ep Hrun.
  pose proof (reachable_wellFormed _ _ Hreach) as (Ip & _).
  assert (Inv : pollingArmed w).
  { destruct Hreach as (now & evs0 & H0).
    eapply run_pollingArmed; [exact H0 | apply pollingArmed_initialWorld]. }
  pose proof (run_pollingArmed _ _ _ _ Hrun Inv) as (_ & _ & Armed).
  pose proof (run_effects _ _ _ _ Hrun) as (_ & _ & Hp & _).
  assert (E : exists p', pollingStartTime (store w') = Some p' /\ (p <= p')%N).
  { destruct Hp as [Same | (p' & E' & B)].
    - exists p. rewrite Same. split; [assumption | lia].
    - exists p'. split; [assumption|]. apply Ip in Ep. lia. }
  destruct E as (p' & E' & B). destruct (Armed p' E') as (iv & Hin & Hs).
  exists p', iv. repeat split; assumption.
Qed.

(** X22.  The callback of an interval that is due.  It leaves the store as it
    is.  When [pollingStartTime] is no longer the one of its session it
    clears its interval and starts no fetch; otherwise it starts a poll
    fetch for the currencies of the store and stays armed, due one period
    later. *)
Theorem interval_polls_for_its_own_session_only strict w id iv :
  findInterval id w = Some iv ->
  (ivDue iv <= clock w)%N ->
  exists w',
    step strict (IntervalFires id) w = Some w'
    /\ store w' = store w
    /\ (pollingStartTime (store w) <> Some (ivPollingStartTime iv) ->
        pollFetches w' = pollFetches w /\ findInterval id w' = None)
    /\ (pollingStartTime (store w) = Some (ivPollingStartTime iv) ->
        pollFetches w'
        = (pollFetches w
             ++ [mkPollFetch (nextId w) (clock w)
                   (currentCurrency (store w)) (nativeCurrency (store w))])%list
        /\ findInterval id w'
           = Some (mkInterval id (ivPollingStartTime iv) (clock w + POLLING_INTERVAL))).
Proof.
  intros F Due. unfold step. rewrite F.
  apply N.leb_le in Due. rewrite Due.
  eexists. split; [reflexivity|].
  unfold intervalCallback, bind, getState, getPollingStartTime.
  change (store (rearm id w)) with (store w).
  destruct (strictNeq _ _) eqn:Neq.
  - split; [reflexivity|]. split.
    + intros _. split; [reflexivity|]. apply find_filter_same.
    + intro E. apply strictNeq_true in Neq. contradiction.
  - split; [reflexivity|]. split.
    + intro Hne. apply strictNeq_false in Neq. contradiction.
    + intros _. split; [reflexivity|].
      exact (findInterval_rearm id w iv F).
Qed.

(** ** Witnesses *)

(** The hypothesis of [nativeCurrency_is_never_changed] holds of a switch of
    the native currency to "BTC" whose fetch succeeds: the native currency
    is "ETH" afterwards. *)
Lemma nativeCurrency_is_never_changed_witness :
  exists w',
    run false [AppUpdateCurrency "" "BTC"; Tick 5; UpdateFetchResolves 0 (5 # 2)]
      (initialWorld 1000) = Some w'
    /\ nativeCurrency (store w') = nativeCurrency (store (initialWorld 1000)).
Proof.
  eexists. split; [vm_compute; reflexivity|].
  apply (nativeCurrency_is_never_changed false
           [AppUpdateCurrency "" "BTC"; Tick 5; UpdateFetchResolves 0 (5 # 2)]
           (initialWorld 1000)).
  vm_compute; reflexivity.
Defined.

(** The hypotheses of [updateCurrency_without_a_currency_is_rejected] hold
    of two empty strings. *)
Lemma updateCurrency_without_a_currency_witness :
  step true (AppUpdateCurrency "" "") (initialWorld 1000)
  = Some (add_log (Rejected missingCurrency) (initialWorld 1000)).
Proof.
  apply (updateCurrency_without_a_currency_is_rejected true "" "" (initialWorld 1000));
    reflexivity.
Defined.

(** The hypothesis of [strict_store_never_switches_currency] holds of the
    world after a [start] and a call of [updateCurrency]. *)
Lemma strict_store_never_switches_currency_witness :
  exists w,
    run true [AppStart; Tick 5; AppUpdateCurrency "eur" ""] (initialWorld 1000) = Some w
    /\ updateFetches w = []
    /\ currentCurrency (store w) = "usd"
    /\ pendingCurrentCurrency (store w) = None
    /\ pendingNativeCurrency (store w) = None
    /\ updateStartTime (store w) = None.
Proof.
  eexists. split; [vm_compute; reflexivity|].
  apply strict_store_never_switches_currency.
  exists 1000%N, [AppStart; Tick 5; AppUpdateCurrency "eur" ""].
  vm_compute; reflexivity.
Defined.

(** The hypotheses of
    [updateCurrency_success_switches_and_restarts_polling] are met, with a
    store whose [dispatch] lets [undefined] pass, by a switch to "eur" whose
    fetch resolves. *)
Lemma updateCurrency_success_witness :
  exists w,
    run false [AppStart; Tick 7; AppUpdateCurrency "eur" ""] (initialWorld 1000) = Some w
    /\ exists w',
         step false (UpdateFetchResolves 2 (9 # 10)) w = Some w'
         /\ log w' = (log w ++ [Dispatched (Act (updateCurrencyFinished (9 # 10)));
                                Dispatched StartThunk;
                                Dispatched (Act (pollingStarted (clock w)))])%list
         /\ conversionRate (store w') = 9 # 10
         /\ conversionDate (store w') = clock w
         /\ currentCurrency (store w') = getPendingOrActiveCurrentCurrency (store w)
         /\ getPendingOrActiveCurrentCurrency (store w') = currentCurrency (store w')
         /\ nativeCurrency (store w') = nativeCurrency (store w)
         /\ pendingNativeCurrency (store w') = pendingNativeCurrency (store w)
         /\ pollingStartTime (store w') = Some (clock w)
         /\ findUpdateFetch 2 w' = None
         /\ In (mkPollFetch (nextId w) (clock w)
                  (getPendingOrActiveCurrentCurrency (store w)) (nativeCurrency (store w)))
               (pollFetches w')
         /\ In (mkInterval (S (nextId w)) (clock w) (clock w + POLLING_INTERVAL))
               (intervals w').
Proof.
  eexists. split; [vm_compute; reflexivity|].
  eapply (updateCurrency_success_switches_and_restarts_polling false _ 2).
  - vm_compute; reflexivity.
  - vm_compute; reflexivity.
Defined.

(** The hypotheses of [failed_update_cancels_the_switch_of_a_later_one] are
    met by a switch to "eur" followed by a switch to "gbp": the first fetch
    fails, the second resolves, and the current currency is still "usd". *)
Lemma failed_update_cancels_the_switch_witness :
  exists w,
    run false [AppUpdateCurrency "eur" ""; Tick 5; AppUpdateCurrency "gbp" ""]
      (initialWorld 1000) = Some w
    /\ pendingCurrentCurrency (store w) = Some "gbp"
    /\ currentCurrency (store w) = "usd"
    /\ exists w1 w2,
         step false (UpdateFetchRejects 0 (Error "network")) w = Some w1
         /\ step false (UpdateFetchResolves 1 (4 # 5)) w1 = Some w2
         /\ pendingCurrentCurrency (store w1) = None
         /\ conversionRate (store w2) = 4 # 5
         /\ currentCurrency (store w2) = currentCurrency (store w)
         /\ pendingCurrentCurrency (store w2) = None.
Proof.
  eexists. split; [vm_compute; reflexivity|].
  split; [vm_compute; reflexivity|].
  split; [vm_compute; reflexivity|].
  eapply (failed_update_cancels_the_switch_of_a_later_one false _ 0 1).
  - vm_compute; reflexivity.
  - vm_compute; reflexivity.
  - discriminate.
  - vm_compute; reflexivity.
Defined.

(** The hypotheses of [polling_once_started_never_ends] hold of the world
    after a [start], followed by [stop()], [dispatch(stop())] and a switch
    of currency whose fetch fails. *)
Lemma polling_once_started_never_ends_witness :
  exists w w',
    run false [AppStart] (initialWorld 1000) = Some w
    /\ run false [AppStop; AppDispatchStop; Tick 5; AppUpdateCurrency "eur" "";
                  UpdateFetchRejects 2 (Error "network")] w = Some w'
    /\ exists p' iv,
         pollingStartTime (store w') = Some p'
         /\ (1000 <= p')%N
         /\ In iv (intervals w')
         /\ ivPollingStartTime iv = p'.
Proof.
  do 2 eexists. split; [vm_compute; reflexivity|]. split; [vm_compute; reflexivity|].
  eapply (polling_once_started_never_ends false _
            [AppStop; AppDispatchStop; Tick 5; AppUpdateCurrency "eur" "";
             UpdateFetchRejects 2 (Error "network")]).
  - exists 1000%N, [AppStart]. vm_compute; reflexivity.
  - vm_compute; reflexivity.
  - vm_compute; reflexivity.
Defined.

(** The hypotheses of [interval_polls_for_its_own_session_only] hold of the
    interval armed by [start], three minutes later. *)
Lemma interval_polls_for_its_own_session_witness :
  exists w,
    run false [AppStart; Tick 180000] (initialWorld 1000) = Some w
    /\ exists iv w',
         findInterval 1 w = Some iv
         /\ step false (IntervalFires 1) w = Some w'
         /\ store w' = store w
         /\ (pollingStartTime (store w) <> Some (ivPollingStartTime iv) ->
             pollFetches w' = pollFetches w /\ findInterval 1 w' = None)
         /\ (pollingStartTime (store w) = Some (ivPollingStartTime iv) ->
             pollFetches w'
             = (pollFetches w
                  ++ [mkPollFetch (nextId w) (clock w)
                        (currentCurrency (store w)) (nativeCurrency (store w))])%list
             /\ findInterval 1 w'
                = Some (mkInterval 1 (ivPollingStartTime iv) (clock w + POLLING_INTERVAL))).
Proof.
  eexists. split; [vm_compute; reflexivity|].
  eexists.
  assert (F : findInterval 1
                (mkWorld (mkState 0 0 "usd" "ETH" None None (Some 1000%N) None) 181000
                   [mkPollFetch 0 1000 "usd" "ETH"] [] [mkInterval 1 1000 181000] 2
                   [Dispatched StartThunk; Dispatched (Act (pollingStarted 1000))])
              = Some (mkInterval 1 1000 181000)) by reflexivity.
  destruct (interval_polls_for_its_own_session_only false _ 1 _ F) as (w' & H).
  - vm_compute. discriminate.
  - exists w'. split; [exact F|]. exact H.
Defined.

(** ** The currencies that are fetched *)

(** A fetch that one task of the event loop leaves in flight was in flight
    before, or was started by that task: a poll fetch for the currencies of
    the store, an update fetch for the pending or active ones. *)
Lemma step_fetch_arguments strict ev w w' :
  step strict ev w = Some w' ->
  (forall p, In p (pollFetches w') ->
     In p (pollFetches w)
     \/ (pfCurrentCurrency p = currentCurrency (store w')
         /\ pfNativeCurrency p = nativeCurrency (store w')))
  /\ (forall u, In u (updateFetches w') ->
        In u (updateFetches w)
        \/ (ufCurrentCurrency u = getPendingOrActiveCurrentCurrency (store w')
            /\ ufNativeCurrency u = getPendingOrActiveNativeCurrency (store w'))).
Proof.
  destruct ev as [ms| | | |c n|id|id rate|id error|id rate|id error]; unfold step.
  - some_inv. split; intros x Hin; left; exact Hin.
  - some_inv. split; intros x Hin; [|left; exact Hin].
    apply in_app_or in Hin. destruct Hin as [Hin | [<- | []]]; [left; exact Hin|].
    right. split; reflexivity.
  - some_inv. split; intros x Hin; left; exact Hin.
  - some_inv. split; intros x Hin; left; destruct strict; exact Hin.
  - some_inv. unfold updateCurrency.
    destruct (negb (truthy c) && negb (truthy n));
      [split; intros x Hin; left; exact Hin|].
    destruct strict; [split; intros x Hin; left; exact Hin|].
    cbv [bind stop ret dispatch dispatchUndefined dateNow getState].
    rewrite dispatchAction_unfold.
    destruct (reducer _ _ _) as [s|e]; [|split; intros x Hin; left; exact Hin].
    split; intros x Hin; [left; exact Hin|].
    apply in_app_or in Hin. destruct Hin as [Hin | [<- | []]]; [left; exact Hin|].
    right. split; reflexivity.
  - destruct (findInterval id w) as [iv|]; [|discriminate].
    destruct (ivDue iv <=? clock w)%N; [|discriminate].
    some_inv. unfold intervalCallback, bind, getState.
    destruct (strictNeq _ _); [split; intros x Hin; left; exact Hin|].
    split; intros x Hin; [|left; exact Hin].
    apply in_app_or in Hin. destruct Hin as [Hin | [<- | []]]; [left; exact Hin|].
    right. split; reflexivity.
  - destruct (findPollFetch id w) as [p|]; [|discriminate].
    some_inv. unfold poll_resolved, bind, getState.
    destruct (pollMustBail _ _); split; intros x Hin; left;
      first [apply filter_In in Hin; apply Hin | exact Hin].
  - destruct (findPollFetch id w) as [p|]; [|discriminate].
    some_inv. split; intros x Hin; left;
      first [apply filter_In in Hin; apply Hin | exact Hin].
  - destruct (findUpdateFetch id w) as [u|]; [|discriminate].
    some_inv.
    unfold updateCurrency_resolved, updateCurrency_settle, updateCurrency_tryRest,
      bind, getState, getUpdateStartTime.
    cbn [removeUpdateFetch with_updateFetches store].
    destruct (strictNeq _ _).
    + split; intros x Hin; left;
        first [apply filter_In in Hin; apply Hin | exact Hin].
    + change (dispatch strict (Act (updateCurrencyFinished rate)))
        with (dispatchAction (updateCurrencyFinished rate)).
      rewrite dispatchAction_unfold.
      cbn [removeUpdateFetch with_updateFetches store clock].
      destruct (reducer _ _ _) as [s|e] eqn:R.
      * split; intros x Hin.
        -- apply in_app_or in Hin. destruct Hin as [Hin | [<- | []]]; [left; exact Hin|].
           right. split; reflexivity.
        -- left. apply filter_In in Hin. apply Hin.
      * exfalso. apply reducer_throws in R. destruct R as (c & n & t & E & _).
        discriminate.
  - destruct (findUpdateFetch id w) as [u|]; [|discriminate].
    some_inv. split; intros x Hin.
    + apply in_app_or in Hin. destruct Hin as [Hin | [<- | []]]; [left; exact Hin|].
      right. split; reflexivity.
    + left. apply filter_In in Hin. apply Hin.
Qed.

(** The reducer never makes [currentCurrency] empty: it assigns to it in
    [updateCurrencyFinished] only, a pending currency that is not empty. *)
Lemma reducer_currentCurrency now s a s' :
  reducer now s a = Normal s' ->
  truthy (currentCurrency s) = true -> truthy (currentCurrency s') = true.
Proof.
  destruct a as [p| |r|c n t| |r]; unfold reducer.
  1-3, 5: intro H; injection H as <-; trivial.
  - destruct (negb (truthy c) && negb (truthy n)); [discriminate|].
    intro H; injection H as <-.
    destruct (truthy c), (truthy n); trivial.
  - destruct s as [date r0 cur nat [pending|] pendingNative polling updating]; simpl;
      [destruct (truthy pending) eqn:T; simpl; rewrite ?T|];
      intro H; injection H as <-; trivial.
Qed.

Lemma step_currentCurrency strict ev w w' :
  step strict ev w = Some w' ->
  truthy (currentCurrency (store w)) = true -> truthy (currentCurrency (store w')) = true.
Proof.
  intros H T. rewrite (step_store _ _ _ _ H).
  destruct ev as [ms| | | |c n|id|id rate|id error|id rate|id error]; try exact T.
  - destruct (strict || _); [exact T|].
    destruct (reducer _ _ _) as [s|e] eqn:R; [|exact T].
    exact (reducer_currentCurrency _ _ _ _ R T).
  - destruct (findPollFetch id w) as [p|]; [|exact T].
    destruct (pollMustBail _ _); exact T.
  - destruct (findUpdateFetch id w) as [u|]; [|exact T].
    destruct (strictNeq _ _); [exact T|].
    destruct (reducer _ _ _) as [s|e] eqn:R; [|exact T].
    exact (reducer_currentCurrency _ _ _ _ R T).
Qed.

Lemma orElse_truthy (given : option string) (current : string) :
  truthy current = true -> truthy (orElse given current) = true.
Proof.
  intro T. unfold orElse. destruct given as [g|]; [|exact T].
  destruct (truthy g) eqn:G; [exact G | exact T].
Qed.

(** What the fetches of a world are asked for. *)
Lemma step_fetched_currencies strict ev w w' :
  step strict ev w = Some w' ->
  fetchedCurrencies w -> fetchedCurrencies w'.
Proof.
  intros H (Tc & En & Hp & Hu).
  pose proof (step_currentCurrency _ _ _ _ H Tc) as Tc'.
  pose proof (step_nativeCurrency _ _ _ _ H) as En'.
  destruct (step_fetch_arguments _ _ _ _ H) as [Ap Au].
  unfold fetchedCurrencies. rewrite En', En.
  split; [exact Tc'|]. split; [reflexivity|]. split.
  - intros p Hin. destruct (Ap p Hin) as [Old | [Ec Enat]]; [exact (Hp p Old)|].
    rewrite Ec, Enat, En', En. split; [exact Tc' | reflexivity].
  - intros u Hin. destruct (Au u Hin) as [Old | [Ec Enat]]; [exact (Hu u Old)|].
    rewrite Ec, Enat. unfold getPendingOrActiveCurrentCurrency,
      getPendingOrActiveNativeCurrency, getCurrentCurrency, getNativeCurrency.
    split; apply orElse_truthy; [exact Tc'|]. rewrite En', En. reflexivity.
Qed.

(** X23.  In every world the program reaches, the current currency of the
    store is not empty and its native currency is "ETH"; every poll fetch in
    flight was asked for a current currency that is not empty and for the
    native currency "ETH"; and every fetch of [updateCurrency] in flight was
    asked for two currencies that are not empty.  [fetchExchangeRate] is
    never called with an empty currency, and polling never asks for another
    native currency than the initial one. *)
Theorem fetches_are_for_currencies_that_are_not_empty strict w :
  reachable strict w ->
  truthy (currentCurrency (store w)) = true
  /\ nativeCurrency (store w) = "ETH"
  /\ (forall p, In p (pollFetches w) ->
        truthy (pfCurrentCurrency p) = true /\ pfNativeCurrency p = "ETH")
  /\ (forall u, In u (updateFetches w) ->
        truthy (ufCurrentCurrency u) = true /\ truthy (ufNativeCurrency u) = true).
Proof.
  intros (now & evs & H).
  assert (G : forall evs w0 w1, run strict evs w0 = Some w1 ->
            fetchedCurrencies w0 -> fetchedCurrencies w1).
  { clear. induction evs as [|ev evs IH]; simpl; intros w0 w1 H I.
    - injection H as <-. exact I.
    - destruct (step strict ev w0) as [w|] eqn:S; [|discriminate].
      eapply IH; [exact H|]. eapply step_fetched_currencies; eassumption. }
  apply (G evs (initialWorld now) w H).
  split; [reflexivity|]. split; [reflexivity|]. split; intros x [].
Qed.

(** The hypothesis of [fetches_are_for_currencies_that_are_not_empty] holds
    of the world in which a poll and a switch of both currencies are
    awaiting their fetches. *)
Lemma fetches_are_for_currencies_witness :
  exists w,
    run false [AppStart; Tick 5; AppUpdateCurrency "eur" "BTC"] (initialWorld 1000) = Some w
    /\ truthy (currentCurrency (store w)) = true
    /\ nativeCurrency (store w) = "ETH"
    /\ (forall p, In p (pollFetches w) ->
          truthy (pfCurrentCurrency p) = true /\ pfNativeCurrency p = "ETH")
    /\ (forall u, In u (updateFetches w) ->
          truthy (ufCurrentCurrency u) = true /\ truthy (ufNativeCurrency u) = true).
Proof.
  eexists. split; [vm_compute; reflexivity|].
  apply (fetches_are_for_currencies_that_are_not_empty false).
  exists 1000%N, [AppStart; Tick 5; AppUpdateCurrency "eur" "BTC"].
  vm_compute; reflexivity.
Defined.

End CurrencyRateProofs.
